(** * The API client and the login form of the appointment front-end

    A shallow embedding of the fetch-based client the login page imports
    from [../lib/api] ([getApiBase], [apiFetch], [login], [storeTokens],
    [refreshToken], [me]) and of the submit handler of the login page,
    with the properties the specification states about them.

    - [Js]: the JavaScript values the client handles (parsed JSON bodies,
      token objects) and the language operations the source applies to
      them: truthiness, [||], [&&], property reads, [String(...)],
      [Array.prototype.join], [String.prototype.includes],
      [JSON.stringify].
    - [Api]: the client, as functions in a state-and-exception monad over
      the browser's [localStorage] and the network.
    - [Login]: the form state and [onSubmit]. *)

From Stdlib Require Import Ascii String ZArith.
From stdpp Require Import gmap strings list pretty.

Set Warnings "-register-all,-clear-no-such-hyp".

Open Scope string_scope.
Open Scope Z_scope.
Open Scope list_scope.
Open Scope stdpp_scope.

(** ** JavaScript values and operations *)

Module Js.

(** A JavaScript number, by the two things the client can observe of
    it: whether it is truthy ([nonzero] is false for 0, -0 and NaN) and
    what [String(n)] is ([shown]: [1], [1.5], [1e+21], [NaN]). *)
Record number := {
  nonzero : bool;
  shown : string
}.

(** The number 1. *)
Definition one : number := {| nonzero := true; shown := "1" |}.

(** A JavaScript value as [JSON.parse] or a caller can hand it to the
    client: no functions.  An object is the list of its own properties;
    reading a property takes the first binding. *)
Inductive value : Type :=
  | VUndef
  | VNull
  | VBool (b : bool)
  | VNum (n : number)
  | VStr (s : string)
  | VArr (items : list value)
  | VObj (fields : list (string * value)).

(** [ToBoolean]: what [if (v)], [!v], [v || w] and [Boolean(v)] test. *)
Definition truthy (v : value) : bool :=
  match v with
  | VUndef | VNull => false
  | VBool b => b
  | VNum n => nonzero n
  | VStr s => negb (String.eqb s "")
  | VArr _ | VObj _ => true
  end.

(** [a || b] and [a && b] return one of their operands. *)
Definition or_ (a b : value) : value := if truthy a then a else b.
Definition and_ (a b : value) : value := if truthy a then b else a.

Fixpoint assoc (k : string) (fields : list (string * value)) : value :=
  match fields with
  | [] => VUndef
  | (k', v) :: rest => if String.eqb k k' then v else assoc k rest
  end.

(** [v.k] for the keys the client reads ([error], [message], [detail],
    [msg], [access_token], [refresh_token]): none of them is a built-in
    property of a string, number, boolean or array, so only an object can
    have one.  Every read in the source is guarded ([data && ...],
    [if (!tokenObj) return]) or optional ([err?.data?.detail], [d?.msg]),
    so the read of [undefined] or [null] is [undefined] too. *)
Definition get (v : value) (k : string) : value :=
  match v with
  | VObj fields => assoc k fields
  | _ => VUndef
  end.

(** [k] is an own property of [v]. *)
Definition has_key (v : value) (k : string) : bool :=
  match v with
  | VObj fields => bool_decide (k ∈ fields.*1)
  | _ => false
  end.

Definition isArray (v : value) : bool :=
  match v with VArr _ => true | _ => false end.

(** [ToString]: [String(v)], the message of [new Error(v)], the value
    [localStorage.setItem] stores; [None] when the conversion throws a
    [TypeError].  An array prints its items separated by commas,
    [undefined] and [null] items as the empty string.  An object prints
    as [[object Object]] through [Object.prototype.toString], unless an
    own property [toString] shadows it: no value here is a function, so
    the shadowing property cannot be called, [valueOf] returns the
    object itself, and the conversion throws. *)
Fixpoint to_string (v : value) : option string :=
  match v with
  | VUndef => Some "undefined"
  | VNull => Some "null"
  | VBool true => Some "true"
  | VBool false => Some "false"
  | VNum n => Some (shown n)
  | VStr s => Some s
  | VArr items =>
      option_map (String.concat ",")
        ((fix each (l : list value) : option (list string) :=
            match l with
            | [] => Some []
            | x :: rest =>
                match match x with
                      | VUndef | VNull => Some ""
                      | _ => to_string x
                      end, each rest with
                | Some s, Some ss => Some (s :: ss)
                | _, _ => None
                end
            end) items)
  | VObj fields =>
      if bool_decide ("toString" ∈ fields.*1) then None
      else Some "[object Object]"
  end.

(** An item as [Array.prototype.join] prints it. *)
Definition join_item (x : value) : option string :=
  match x with
  | VUndef | VNull => Some ""
  | _ => to_string x
  end.

(** The strings of [parts], if every one is there. *)
Fixpoint collect (parts : list (option string)) : option (list string) :=
  match parts with
  | [] => Some []
  | Some s :: rest => option_map (cons s) (collect rest)
  | None :: _ => None
  end.

(** [items.join(sep)]; [None] when the conversion of an item throws. *)
Definition join (sep : string) (items : list value) : option string :=
  option_map (String.concat sep) (collect (List.map join_item items)).

(** [hay.includes(needle)]: [needle] occurs in [hay] at some position. *)
Fixpoint includes (hay needle : string) : bool :=
  String.prefix needle hay
  || match hay with
     | EmptyString => false
     | String _ rest => includes rest needle
     end.

(** *** [JSON.stringify] *)

Definition hex_digit (n : N) : ascii :=
  match n with
  | 0 => "0" | 1 => "1" | 2 => "2" | 3 => "3" | 4 => "4" | 5 => "5"
  | 6 => "6" | 7 => "7" | 8 => "8" | 9 => "9" | 10 => "a" | 11 => "b"
  | 12 => "c" | 13 => "d" | 14 => "e" | _ => "f"
  end%N%char.

Definition dquote : ascii := ascii_of_nat 34.
Definition backslash : ascii := ascii_of_nat 92.

(** One character inside a JSON string literal: the quote and the
    backslash are escaped, control characters take their short escape or
    [\u00xx], everything else is copied. *)
Definition escape_char (c : ascii) : string :=
  let n := N_of_ascii c in
  if Ascii.eqb c dquote then String backslash (String dquote "")
  else if Ascii.eqb c backslash then String backslash (String backslash "")
  else if (n =? 8)%N then String backslash "b"
  else if (n =? 9)%N then String backslash "t"
  else if (n =? 10)%N then String backslash "n"
  else if (n =? 12)%N then String backslash "f"
  else if (n =? 13)%N then String backslash "r"
  else if (n <? 32)%N then
    String backslash
      (String "u" (String "0" (String "0"
        (String (hex_digit (n / 16)) (String (hex_digit (n mod 16)) "")))))
  else String c "".

Fixpoint escape (s : string) : string :=
  match s with
  | EmptyString => ""
  | String c rest => escape_char c +:+ escape rest
  end.

Definition quote (s : string) : string :=
  String dquote (escape s +:+ String dquote "").

(** [JSON.stringify(o)] for an object [o] whose properties are strings,
    which is all the client serialises: the members in the order of the
    properties, each a quoted name, a colon and the quoted value. *)
Definition JSON_stringify (fields : list (string * string)) : string :=
  "{" +:+
  String.concat ","
    (List.map (λ kv, quote kv.1 +:+ ":" +:+ quote kv.2) fields)
  +:+ "}".

End Js.

(** ** The API client *)

Module Api.
Import Js.

(** The second argument of [fetch] and of [apiFetch]: the request options
    the client sets or forwards.  [None] is a property left out. *)
Record Options := {
  method : option string;
  body : option string;
  headers : option (gmap string string)
}.

(** What [fetch] is called with: the URL and [{ ...options, headers }]. *)
Record Request := {
  url : string;
  req_method : option string;
  req_body : option string;
  req_headers : gmap string string
}.

(** What [res.json()] settles to: the parsed body, or a rejection: the
    [SyntaxError] of a body that is not JSON (an empty body included), or
    the error of a body that could not be received. *)
Inductive JsonResult :=
  | Parsed (v : value)
  | Malformed (why : string).

(** What [res.text()] settles to: the body, or the rejection of a body
    that could not be received. *)
Inductive TextResult :=
  | TextRead (t : string)
  | TextFailed (why : string).

(** A received response, as the client observes it: [res.status] (an
    unsigned 16-bit number), [res.headers.get('content-type')] ([None]
    for [null]), what [res.text()] and what [res.json()] settle to. *)
Record Response := {
  status : Z;
  content_type : option string;
  text : TextResult;
  json : JsonResult
}.

(** [res.ok]: the status is in the range 200-299. *)
Definition ok (res : Response) : bool :=
  (200 <=? status res)%Z && (status res <=? 299)%Z.

(** What the promise of [fetch] settles to: a response, whatever its
    status, or a rejection (the network failed). *)
Inductive FetchResult :=
  | Responded (res : Response)
  | Rejected (why : string).

(** A thrown error object: its message and the two properties
    [apiFetch] attaches; [None] is a property that was never set. *)
Record JsError := {
  message : string;
  err_status : option Z;
  err_data : option value
}.

(** An error with the message [msg] and nothing attached: [new
    Error(msg)] for a string [msg], and the errors the platform
    throws. *)
Definition Error (msg : string) : JsError :=
  {| message := msg; err_status := None; err_data := None |}.

(** The [TypeError] of a value that cannot be converted to a string.
    Its message is the engine's; this is V8's. *)
Definition TypeError : JsError :=
  Error "Cannot convert object to primitive value".

(** The browser state the client acts on: [localStorage], and the record
    of the calls made so far to [localStorage.setItem] and to [fetch]
    (oldest first). *)
Record World := {
  localStorage : gmap string string;
  setItem_calls : list (string * string);
  fetch_calls : list Request
}.

(** How the storage answers a write of a value under a key, given the
    world at that moment (what it holds, and the calls made so far, so
    that two writes need not be answered alike): [None] when it takes
    the write, the message of the [QuotaExceededError] it throws when it
    does not. *)
Definition Quota : Type := World → string → string → option string.

(** *** Computations that read and write the world and may throw *)

Inductive Result (A : Type) :=
  | Return (a : A)
  | Throw (e : JsError).
Arguments Return {A} a.
Arguments Throw {A} e.

Definition M (A : Type) : Type := World → Result A * World.

#[global] Instance M_ret : MRet M := λ A a w, (Return a, w).
#[global] Instance M_bind : MBind M := λ A B f m w,
  match m w with
  | (Return a, w') => f a w'
  | (Throw e, w') => (Throw e, w')
  end.

Definition throw {A : Type} (e : JsError) : M A := λ w, (Throw e, w).

(** [localStorage.getItem(key)]: the stored string, or [None] for
    [null]. *)
Definition getItem (key : string) : M (option string) := λ w,
  (Return (localStorage w !! key), w).

(** A string or [null], tested as a condition. *)
Definition truthy_string (o : option string) : bool :=
  match o with
  | Some s => negb (String.eqb s "")
  | None => false
  end.

(** The string of a string-or-null that has tested truthy. *)
Definition the_string (o : option string) : string := default "" o.

(** [localStorage.setItem(key, v)]: [v] is converted to a string, which
    may throw; the call then reaches the storage and is recorded; the
    storage takes the string or throws. *)
Definition setItem (quota : Quota) (key : string) (v : value) : M unit :=
  λ w,
    match to_string v with
    | None => (Throw TypeError, w)
    | Some s =>
        match quota w key s with
        | None =>
            (Return (),
             {| localStorage := <[key := s]> (localStorage w);
                setItem_calls := setItem_calls w ++ [(key, s)];
                fetch_calls := fetch_calls w |})
        | Some why =>
            (Throw (Error why),
             {| localStorage := localStorage w;
                setItem_calls := setItem_calls w ++ [(key, s)];
                fetch_calls := fetch_calls w |})
        end
    end.

(** [res.json()] and [res.text()]. *)
Definition res_json (res : Response) : M value :=
  match json res with
  | Parsed v => mret v
  | Malformed why => throw (Error why)
  end.

Definition res_text (res : Response) : M string :=
  match text res with
  | TextRead t => mret t
  | TextFailed why => throw (Error why)
  end.

(** [new Error(msg)] for any [msg]: the message is [String(msg)]. *)
Definition new_Error (msg : value) : M JsError :=
  match to_string msg with
  | Some m => mret (Error m)
  | None => throw TypeError
  end.

(** [{ ...a, ...b }]: the properties of both, those of [b] winning. *)
Definition spread (a b : gmap string string) : gmap string string := b ∪ a.

Section Client.

(** The build-time setting [import.meta.env.VITE_API_BASE], the remote
    side (what the promise of [fetch] settles to for a request) and the
    storage's answer to a write. *)
Variable VITE_API_BASE : option string.
Variable network : Request → FetchResult.
Variable quota : Quota.

Definition API_BASE : string :=
  match VITE_API_BASE with
  | Some s => if String.eqb s "" then "http://localhost:8000" else s
  | None => "http://localhost:8000"
  end.

Definition getApiBase : string := API_BASE.

(** [await fetch(url, init)]: the call is recorded, then the promise
    settles. *)
Definition fetch (req : Request) : M Response := λ w,
  (match network req with
   | Responded res => Return res
   | Rejected why => Throw (Error why)
   end,
   {| localStorage := localStorage w;
      setItem_calls := setItem_calls w;
      fetch_calls := fetch_calls w ++ [req] |}).

(** [localStorage.getItem('access_token') || null]. *)
Definition getStoredAccessToken : M (option string) :=
  t ← getItem "access_token";
  mret (if truthy_string t then t else None).

Definition authHeaders : M (gmap string string) :=
  token ← getStoredAccessToken;
  mret (if truthy_string token
        then {["Authorization" := "Bearer " +:+ the_string token]}
        else ∅).

Definition apiFetch (path : string) (options : Options) : M value :=
  let url := API_BASE +:+ path in
  auth ← authHeaders;
  let baseHeaders := spread {["Content-Type" := "application/json"]} auth in
  let headers := spread baseHeaders (default ∅ (headers options)) in
  res ← fetch {| url := url; req_method := method options;
                 req_body := body options; req_headers := headers |};
  let contentType := default "" (content_type res) in
  data ← (if includes contentType "application/json"
          then res_json res
          else text ← res_text res;
               mret (if truthy (VStr text)
                     then VObj [("message", VStr text)]
                     else VNull));
  if negb (ok res) then
    let msg :=
      or_ (and_ data (or_ (get data "error") (get data "message")))
          (VStr ("Request failed with " +:+ pretty (status res))) in
    err ← new_Error msg;
    throw {| message := message err;
             err_status := Some (status res);
             err_data := Some data |}
  else mret data.

(** The argument of [login]. *)
Record Credentials := {
  email : string;
  password : string;
  role : string
}.

Definition login (c : Credentials) : M value :=
  apiFetch "/auth/login"
    {| method := Some "POST";
       body := Some (JSON_stringify
                 [("email", email c); ("password", password c);
                  ("role", role c)]);
       headers := None |}.

Definition storeTokens (tokenObj : value) : M unit :=
  if negb (truthy tokenObj) then mret ()
  else
    _ ← (if truthy (get tokenObj "access_token")
         then setItem quota "access_token" (get tokenObj "access_token")
         else mret ());
    if truthy (get tokenObj "refresh_token")
    then setItem quota "refresh_token" (get tokenObj "refresh_token")
    else mret ().

Definition refreshToken : M value :=
  refresh_token ← getItem "refresh_token";
  if negb (truthy_string refresh_token)
  then throw (Error "No refresh token found")
  else
    data ← apiFetch "/auth/refresh"
             {| method := Some "POST";
                body := Some (JSON_stringify
                          [("refresh_token", the_string refresh_token)]);
                headers := None |};
    _ ← storeTokens data;
    mret data.

Definition me : M value :=
  apiFetch "/auth/me"
    {| method := Some "GET"; body := None; headers := None |}.

End Client.

(** *** Notions the properties are stated with *)

(** The content-type header indicates JSON: it is set and
    [application/json] occurs in it. *)
Definition indicates_json (res : Response) : Prop :=
  ∃ ct pre post,
    content_type res = Some ct ∧ ct = pre +:+ "application/json" +:+ post.

(** The body of [res] reads as [data]: the parsed JSON value of a JSON
    response, [{message: text}] for another response with a non-empty
    text, [null] for another response with an empty text.  A JSON
    response whose body does not parse, and a body that cannot be
    received, read as nothing. *)
Inductive reads_as (res : Response) : value → Prop :=
  | reads_json v :
      indicates_json res → json res = Parsed v → reads_as res v
  | reads_text t :
      ¬ indicates_json res → text res = TextRead t → t ≠ "" →
      reads_as res (VObj [("message", VStr t)])
  | reads_empty :
      ¬ indicates_json res → text res = TextRead "" → reads_as res VNull.

(** What a call hands to its caller: the value returned, or the [data]
    attached to the error thrown. *)
Definition delivered (r : Result value) : option value :=
  match r with
  | Return v => Some v
  | Throw e => err_data e
  end.

(** The error message as the specification words it, by the presence of
    the property: [data.error] if present, else [data.message] if
    present, else the generic message. *)
Definition stated_message (data : value) (status : Z) : value :=
  if has_key data "error" then get data "error"
  else if has_key data "message" then get data "message"
  else VStr ("Request failed with " +:+ pretty status).

(** The value the error message is made of, by truthiness: [data.error]
    if truthy, else [data.message] if truthy, else the generic
    message. *)
Definition message_source (data : value) (status : Z) : value :=
  if truthy (get data "error") then get data "error"
  else if truthy (get data "message") then get data "message"
  else VStr ("Request failed with " +:+ pretty status).

(** A string that [JSON.stringify] copies between the quotes as it is:
    no quote, no backslash, no control character. *)
Definition plain_char (c : ascii) : bool :=
  negb (Ascii.eqb c dquote) && negb (Ascii.eqb c backslash)
  && (32 <=? N_of_ascii c)%N.

Definition plain (s : string) : Prop :=
  Forall (λ c, plain_char c = true) (list_ascii_of_string s).

(** The text [s] between double quotes. *)
Definition quoted (s : string) : string :=
  String dquote (s +:+ String dquote "").

(** The [msg] properties a list of detail items shows, in order: the
    string form of every truthy one. *)
Inductive detail_messages : list value → list string → Prop :=
  | detail_none : detail_messages [] []
  | detail_skip d items shown :
      truthy (get d "msg") = false →
      detail_messages items shown →
      detail_messages (d :: items) shown
  | detail_keep d items s shown :
      truthy (get d "msg") = true →
      to_string (get d "msg") = Some s →
      detail_messages items shown →
      detail_messages (d :: items) (s :: shown).

(** *** Sample worlds, responses, servers and storages *)

Definition empty_world : World :=
  {| localStorage := ∅; setItem_calls := []; fetch_calls := [] |}.

(** A browser in which an earlier login stored both tokens. *)
Definition logged_in_world : World :=
  {| localStorage := {["access_token" := "T0"; "refresh_token" := "R0"]};
     setItem_calls := []; fetch_calls := [] |}.

Definition no_options : Options :=
  {| method := None; body := None; headers := None |}.

(** A JSON response whose body parses to [v].  The sample does not
    spell out the text of the body, which the client reads through
    [res.json()] alone. *)
Definition json_response (st : Z) (ctype : string) (v : value) : Response :=
  {| status := st; content_type := Some ctype;
     text := TextFailed "not spelled out"; json := Parsed v |}.

Definition text_response (st : Z) (ctype : option string) (t : string)
  : Response :=
  {| status := st; content_type := ctype; text := TextRead t;
     json := Malformed "Unexpected token" |}.

(** A response that announces JSON and carries an empty body. *)
Definition empty_json_response (st : Z) : Response :=
  {| status := st; content_type := Some "application/json";
     text := TextRead "";
     json := Malformed "Unexpected end of JSON input" |}.

(** A server that answers every request with [res]. *)
Definition always (res : Response) : Request → FetchResult :=
  λ _, Responded res.

(** A network that is down. *)
Definition offline : Request → FetchResult :=
  λ _, Rejected "Failed to fetch".

(** A storage that takes every write. *)
Definition unlimited : Quota := λ _ _ _, None.

(** A storage that takes strings of at most four characters. *)
Definition tight : Quota := λ _ _ s,
  if (String.length s <=? 4)%nat then None
  else Some "The quota has been exceeded.".

Definition token_pair (a r : string) : value :=
  VObj [("access_token", VStr a); ("refresh_token", VStr r);
        ("token_type", VStr "bearer")].

(** The request a client with the default base address and no stored
    token sends for [path]. *)
Definition anonymous_request
    (path : string) (m b : option string) : Request :=
  {| url := "http://localhost:8000" +:+ path; req_method := m;
     req_body := b;
     req_headers := {["Content-Type" := "application/json"]} |}.

(** The same from [logged_in_world]. *)
Definition bearer_request
    (path : string) (m b : option string) : Request :=
  {| url := "http://localhost:8000" +:+ path; req_method := m;
     req_body := b;
     req_headers := {["Content-Type" := "application/json";
                      "Authorization" := "Bearer T0"]} |}.

(** The login request of the form as first rendered, from a browser
    without stored token, and the world once it is sent. *)
Definition first_login_request : Request :=
  anonymous_request "/auth/login" (Some "POST")
    (Some ("{" +:+ quoted "email" +:+ ":" +:+ quoted "" +:+ "," +:+
           quoted "password" +:+ ":" +:+ quoted "" +:+ "," +:+
           quoted "role" +:+ ":" +:+ quoted "patient" +:+ "}")).

Definition first_login_sent : World :=
  {| localStorage := ∅; setItem_calls := [];
     fetch_calls := [first_login_request] |}.

(** Credentials made of plain characters, and a password with a
    double quote in it. *)
Definition plain_credentials : Credentials :=
  {| email := "a@b.com"; password := "x"; role := "patient" |}.

Definition quoting_credentials : Credentials :=
  {| email := "a@b.com";
     password := "p" +:+ String dquote "q";
     role := "patient" |}.

(** A body that carries its explanation as a string under [detail]. *)
Definition detail_string_body : value :=
  VObj [("detail", VStr "Incorrect email or password")].

(** The body FastAPI sends with status 422 for an invalid e-mail. *)
Definition invalid_email_body : value :=
  VObj [("detail",
         VArr [VObj [("msg", VStr "value is not a valid email address")]])].

(** A 422 body with two complaints. *)
Definition two_details_body : value :=
  VObj [("detail",
         VArr [VObj [("msg", VStr "field required")];
               VObj [("loc", VStr "body")];
               VObj [("msg", VStr "value is not a valid email address")]])].

(** An error body whose [error] is an object that shadows [toString]. *)
Definition shadowed_error_body : value :=
  VObj [("error", VObj [("toString", VNum one)])].

End Api.

(** ** The login form *)

Module Login.
Import Js.

(** The component's state hooks, and the navigation [setTimeout] has
    scheduled, if any: the delay in milliseconds and the target route. *)
Record Form := {
  email : string;
  password : string;
  role : string;
  loading : bool;
  error : string;
  message : string;
  scheduled : option (Z * string)
}.

(** The state of the first render: the [useState] defaults. *)
Definition initial : Form :=
  {| email := ""; password := ""; role := "patient"; loading := false;
     error := ""; message := ""; scheduled := None |}.

Definition setLoading (b : bool) (f : Form) : Form :=
  {| email := email f; password := password f; role := role f;
     loading := b; error := error f; message := message f;
     scheduled := scheduled f |}.

Definition setError (s : string) (f : Form) : Form :=
  {| email := email f; password := password f; role := role f;
     loading := loading f; error := s; message := message f;
     scheduled := scheduled f |}.

Definition setMessage (s : string) (f : Form) : Form :=
  {| email := email f; password := password f; role := role f;
     loading := loading f; error := error f; message := s;
     scheduled := scheduled f |}.

(** [setTimeout(() => navigate(to), ms)]. *)
Definition setTimeout_navigate (to : string) (ms : Z) (f : Form) : Form :=
  {| email := email f; password := password f; role := role f;
     loading := loading f; error := error f; message := message f;
     scheduled := Some (ms, to) |}.

(** The [catch] block's message for a thrown [err]; [None] when joining
    the details throws. *)
Definition catch_message (err : Api.JsError) : option string :=
  let details :=
    match Api.err_data err with
    | Some data => get data "detail"
    | None => VUndef
    end in
  match details with
  | VArr items =>
      join ", " (List.filter truthy (List.map (λ d, get d "msg") items))
  | _ =>
      Some (if String.eqb (Api.message err) "" then "Login failed"
            else Api.message err)
  end.

Section Handler.

Variable VITE_API_BASE : option string.
Variable network : Api.Request → Api.FetchResult.
Variable quota : Api.Quota.

(** The [catch] block: the message is shown, unless making it throws. *)
Definition catch_block (err : Api.JsError) (f : Form) (w : Api.World)
  : Api.Result unit * (Form * Api.World) :=
  match catch_message err with
  | Some msg => (Api.Return (), (setError msg f, w))
  | None => (Api.Throw Api.TypeError, (f, w))
  end.

(** [onSubmit]: how the handler ends (it throws only out of its [catch]
    block), and the state and the world when it has run to its end, the
    [finally] block included.  ([e.preventDefault()] only keeps the
    browser from reloading the page.) *)
Definition onSubmit (f : Form) (w : Api.World)
  : Api.Result unit * (Form * Api.World) :=
  let f := setError "" f in
  let f := setMessage "" f in
  let f := setLoading true f in
  let '(r, (f, w)) :=
    match Api.login VITE_API_BASE network
            {| Api.email := email f; Api.password := password f;
               Api.role := role f |} w with
    | (Api.Return res, w) =>
        if truthy (and_ res (or_ (get res "access_token")
                                 (get res "refresh_token")))
        then
          match Api.storeTokens quota res w with
          | (Api.Return _, w) =>
              let f := setMessage "Login successful! Redirecting..." f in
              (Api.Return (), (setTimeout_navigate "/" 800 f, w))
          | (Api.Throw err, w) => catch_block err f w
          end
        else
          (Api.Return (),
           (setError
              "Login succeeded but no token returned. Please verify API response."
              f, w))
    | (Api.Throw err, w) => catch_block err f w
    end in
  (r, (setLoading false f, w)).

(** The line under the heading: [API: {getApiBase()}/auth/login]. *)
Definition api_hint : string :=
  "API: " +:+ Api.getApiBase VITE_API_BASE +:+ "/auth/login".

End Handler.

End Login.

(** ** Properties of the client *)

Module ApiFacts.
Import Js Api.

(** *** Substring containment *)

Lemma prefix_app_iff (n h : string) :
  String.prefix n h = true ↔ ∃ post, h = n +:+ post.
Proof.
  revert h. induction n as [|c n IH]; intros [|d h]; simpl.
  - split; [intros _; by exists "" | done].
  - split; [intros _; by exists (String d h) | done].
  - split; [done | intros [post H]; discriminate].
  - destruct (Ascii.ascii_dec c d) as [->|Hne].
    + rewrite IH. split; intros [post H]; exists post; [by subst|].
      by injection H.
    + split; [done | intros [post H]; by injection H].
Qed.

Lemma includes_iff (hay needle : string) :
  includes hay needle = true ↔ ∃ pre post, hay = pre +:+ needle +:+ post.
Proof.
  induction hay as [|c hay IH]; cbn [includes].
  - rewrite orb_false_r, prefix_app_iff. split.
    + intros [post ->]. by exists "", post.
    + intros [[|? pre] [post H]]; [by exists post | discriminate].
  - rewrite orb_true_iff, prefix_app_iff, IH. split.
    + intros [[post ->] | (pre & post & ->)].
      * by exists "", post.
      * by exists (String c pre), post.
    + intros [[|d pre] [post H]].
      * left. by exists post.
      * right. injection H as _ ->. by exists pre, post.
Qed.

Lemma indicates_json_includes (res : Response) :
  indicates_json res ↔
  includes (default "" (content_type res)) "application/json" = true.
Proof.
  unfold indicates_json. destruct (content_type res) as [ct|]; simpl.
  - rewrite includes_iff. split.
    + intros (? & pre & post & [= <-] & ->). by exists pre, post.
    + intros (pre & post & ->). by exists (pre +:+ "application/json" +:+ post), pre, post.
  - split; [by intros (? & ? & ? & [=] & _) | done].
Qed.

Lemma not_indicates_json_includes (res : Response) :
  ¬ indicates_json res ↔
  includes (default "" (content_type res)) "application/json" = false.
Proof. rewrite indicates_json_includes. by destruct (includes _ _). Qed.

(** The source's [(data && (data.error || data.message)) || generic] is
    the first truthy of [data.error], [data.message] and the generic
    message. *)
Lemma message_source_eq (data : value) (st : Z) :
  or_ (and_ data (or_ (get data "error") (get data "message")))
      (VStr ("Request failed with " +:+ pretty st))
  = message_source data st.
Proof.
  unfold message_source, or_, and_.
  destruct (truthy data) eqn:Hd.
  - destruct (truthy (get data "error")) eqn:He; rewrite ?He; [done|].
    by destruct (truthy (get data "message")) eqn:Hm; rewrite ?Hm.
  - rewrite ?Hd. by destruct data.
Qed.

Section Client.

Variable VITE_API_BASE : option string.
Variable network : Request → FetchResult.

Abbreviation API_BASE := (Api.API_BASE VITE_API_BASE).
Abbreviation apiFetch := (Api.apiFetch VITE_API_BASE network).

(** *** One run of [apiFetch] *)

(** [apiFetch] makes exactly one call to [fetch]; the outcome is decided
    by what the network answers to it. *)
Lemma apiFetch_run (path : string) (opts : Options) (w : World) :
  ∃ req,
    (url req = API_BASE +:+ path ∧
     req_method req = method opts ∧
     req_body req = body opts ∧
     req_headers req =
       default ∅ (headers opts) ∪
       ((match localStorage w !! "access_token" with
         | Some t => if String.eqb t "" then ∅
                     else {["Authorization" := "Bearer " +:+ t]}
         | None => ∅
         end) ∪ {["Content-Type" := "application/json"]})) ∧
    apiFetch path opts w =
      (match network req with
       | Rejected why => Throw (Error why)
       | Responded res =>
           match (if includes (default "" (content_type res))
                              "application/json"
                  then json res
                  else match text res with
                       | TextRead t =>
                           Parsed (if String.eqb t "" then VNull
                                   else VObj [("message", VStr t)])
                       | TextFailed why => Malformed why
                       end)
           with
           | Malformed why => Throw (Error why)
           | Parsed data =>
               if ok res then Return data
               else
                 match to_string (message_source data (status res)) with
                 | Some m =>
                     Throw {| message := m;
                              err_status := Some (status res);
                              err_data := Some data |}
                 | None => Throw TypeError
                 end
           end
       end,
       {| localStorage := localStorage w;
          setItem_calls := setItem_calls w;
          fetch_calls := fetch_calls w ++ [req] |}).
Proof.
  set (auth := match localStorage w !! "access_token" with
               | Some t => if String.eqb t "" then ∅
                           else {["Authorization" := "Bearer " +:+ t]}
               | None => ∅
               end : gmap string string).
  exists {| url := API_BASE +:+ path; req_method := method opts;
            req_body := body opts;
            req_headers := default ∅ (headers opts) ∪
                           (auth ∪ {["Content-Type" := "application/json"]}) |}.
  split; [done|].
  unfold Api.apiFetch, authHeaders, getStoredAccessToken, getItem, fetch,
    res_json, res_text, new_Error, throw, spread, mbind, M_bind, mret, M_ret.
  assert ((if truthy_string
                (if truthy_string (localStorage w !! "access_token")
                 then localStorage w !! "access_token" else None)
           then {["Authorization" :=
                    "Bearer " +:+
                    the_string
                      (if truthy_string (localStorage w !! "access_token")
                       then localStorage w !! "access_token" else None)]}
           else ∅) = auth) as ->.
  { subst auth. destruct (localStorage w !! "access_token") as [t|]; [|done].
    simpl. destruct (String.eqb t "") eqn:E; simpl; [done|]. by rewrite E. }
  cbn -[or_ and_ to_string]. destruct (network _) as [res|why]; [|done].
  destruct (includes _ _); cbn -[or_ and_ to_string].
  - destruct (json res); cbn -[or_ and_ to_string]; [|done].
    destruct (ok res); cbn -[or_ and_ to_string]; [done|].
    rewrite message_source_eq. by destruct (to_string _).
  - destruct (text res) as [t|why]; cbn -[or_ and_ to_string]; [|done].
    destruct (String.eqb t ""); cbn -[or_ and_ to_string];
      (destruct (ok res); cbn -[or_ and_ to_string]; [done|]);
      rewrite message_source_eq; by destruct (to_string _).
Qed.

(** The request [apiFetch] sends is the last entry of the record. *)
Lemma sent_request (path : string) (opts : Options) (w : World)
    (req req' : Request) :
  fetch_calls (apiFetch path opts w).2 = fetch_calls w ++ [req] →
  (apiFetch path opts w).2 =
    {| localStorage := localStorage w; setItem_calls := setItem_calls w;
       fetch_calls := fetch_calls w ++ [req'] |} →
  req' = req.
Proof.
  intros H1 H2. rewrite H2 in H1. simpl in H1.
  apply app_inj_tail in H1 as [_ ?]. done.
Qed.

(** [apiFetch] never touches [localStorage]. *)
Lemma apiFetch_storage (path : string) (opts : Options) (w : World) :
  localStorage (apiFetch path opts w).2 = localStorage w ∧
  setItem_calls (apiFetch path opts w).2 = setItem_calls w.
Proof.
  destruct (apiFetch_run path opts w) as (req & _ & ->). done.
Qed.

(** *** Request headers *)

(** C5. For every call of [apiFetch] exactly one request goes out, to the
    base address followed by the path, and its headers are the merge of
    the caller's headers, the [Authorization: Bearer <token>] header and
    the [Content-Type: application/json] header, the caller's winning
    where a name collides: a header the caller supplies has the caller's
    value; otherwise [Authorization] is set exactly when a non-empty
    access token is stored (to [Bearer ] followed by the token),
    [Content-Type] is [application/json], and no other header is set. *)
Theorem apiFetch_request_headers
    (path : string) (opts : Options) (w : World) :
  ∃ req,
    fetch_calls (apiFetch path opts w).2 = fetch_calls w ++ [req] ∧
    url req = API_BASE +:+ path ∧
    ∀ name : string,
      req_headers req !! name =
        match default ∅ (headers opts) !! name with
        | Some v => Some v
        | None =>
            if decide (name = "Authorization") then
              match localStorage w !! "access_token" with
              | Some t =>
                  if decide (t = "") then None else Some ("Bearer " +:+ t)
              | None => None
              end
            else if decide (name = "Content-Type")
            then Some "application/json"
            else None
        end.
Proof.
  destruct (apiFetch_run path opts w) as (req & (Hu & _ & _ & Hh) & ->).
  exists req. split; [done|]. split; [done|]. intros name.
  rewrite Hh, lookup_union.
  destruct (default ∅ (headers opts) !! name) as [v|]; simpl.
  { by destruct (_ !! name). }
  rewrite (left_id None _), lookup_union.
  destruct (decide (name = "Authorization")) as [->|Hna].
  - rewrite lookup_singleton_ne by done. rewrite (right_id None _).
    destruct (localStorage w !! "access_token") as [t|]; [|done].
    destruct (decide (t = "")) as [->|Hne]; [done|].
    apply String.eqb_neq in Hne. rewrite Hne.
    by rewrite lookup_singleton_eq.
  - assert ((match localStorage w !! "access_token" with
             | Some t => if String.eqb t "" then ∅
                         else {["Authorization" := "Bearer " +:+ t]}
             | None => ∅
             end : gmap string string) !! name = None) as ->.
    { destruct (localStorage w !! "access_token") as [t|]; [|done].
      destruct (String.eqb t ""); [done|]. by rewrite lookup_singleton_ne. }
    rewrite (left_id None _).
    destruct (decide (name = "Content-Type")) as [->|Hnc].
    + by rewrite lookup_singleton_eq.
    + by rewrite lookup_singleton_ne.
Qed.

(** *** Reading the body *)

Lemma ok_range (res : Response) :
  ok res = true ↔ 200 ≤ status res ≤ 299.
Proof. unfold ok. rewrite andb_true_iff, !Z.leb_le. done. Qed.

Lemma ok_false_range (res : Response) :
  ok res = false ↔ ¬ (200 ≤ status res ≤ 299).
Proof. rewrite <-ok_range. by destruct (ok res). Qed.

(** The run of [apiFetch], given the request it sent. *)
Lemma apiFetch_run_at
    (path : string) (opts : Options) (w : World) (req : Request) :
  fetch_calls (apiFetch path opts w).2 = fetch_calls w ++ [req] →
  (apiFetch path opts w).1 =
    match network req with
    | Rejected why => Throw (Error why)
    | Responded res =>
        match (if includes (default "" (content_type res))
                           "application/json"
               then json res
               else match text res with
                    | TextRead t =>
                        Parsed (if String.eqb t "" then VNull
                                else VObj [("message", VStr t)])
                    | TextFailed why => Malformed why
                    end)
        with
        | Malformed why => Throw (Error why)
        | Parsed data =>
            if ok res then Return data
            else
              match to_string (message_source data (status res)) with
              | Some m =>
                  Throw {| message := m;
                           err_status := Some (status res);
                           err_data := Some data |}
              | None => Throw TypeError
              end
        end
    end.
Proof.
  intros Hsent.
  destruct (apiFetch_run path opts w) as (req' & _ & Hrun).
  assert (req' = req) as -> by (eapply sent_request; [done | by rewrite Hrun]).
  by rewrite Hrun.
Qed.

(** What [apiFetch] does with an answered request whose body reads as
    [data]. *)
Lemma apiFetch_answered
    (path : string) (opts : Options) (w : World)
    (req : Request) (res : Response) (data : value) :
  fetch_calls (apiFetch path opts w).2 = fetch_calls w ++ [req] →
  network req = Responded res →
  reads_as res data →
  (apiFetch path opts w).1 =
    if ok res then Return data
    else
      match to_string (message_source data (status res)) with
      | Some m =>
          Throw {| message := m;
                   err_status := Some (status res);
                   err_data := Some data |}
      | None => Throw TypeError
      end.
Proof.
  intros Hsent Hnet Hread.
  rewrite (apiFetch_run_at path opts w req Hsent), Hnet.
  destruct Hread as [v Hj Hv | t Hj Ht Hne | Hj Ht].
  - apply indicates_json_includes in Hj. by rewrite Hj, Hv.
  - apply not_indicates_json_includes in Hj. rewrite Hj, Ht.
    apply String.eqb_neq in Hne. by rewrite Hne.
  - apply not_indicates_json_includes in Hj. by rewrite Hj, Ht.
Qed.

(** C10. [apiFetch] takes a response for JSON exactly when
    [application/json] occurs in its content-type header.  When it does,
    the body is parsed as JSON: the parsed value is what the caller gets
    (returned on a success status; as the error's data on another
    status, where an error message that cannot be made leaves the
    conversion's error without data instead), whatever the text, and a
    body that does not parse makes the call throw the parser's error.
    When it does not, the body is read as text: the caller gets
    [{message: text}], or [null] for an empty text, and a text that
    cannot be received makes the call throw that error.  A header with
    parameters, such as [application/json; charset=utf-8], is JSON; a
    response without a content-type header is text. *)
Theorem apiFetch_json_by_substring
    (path : string) (opts : Options) (w : World)
    (req : Request) (res : Response) :
  fetch_calls (apiFetch path opts w).2 = fetch_calls w ++ [req] →
  network req = Responded res →
  (includes (default "" (content_type res)) "application/json" = true
   ↔ ∃ ct pre post,
       content_type res = Some ct ∧
       ct = pre +:+ "application/json" +:+ post) ∧
  (indicates_json res →
     match json res with
     | Parsed v =>
         (200 ≤ status res ≤ 299 ∨
          is_Some (to_string (message_source v (status res))) →
          delivered (apiFetch path opts w).1 = Some v) ∧
         (¬ (200 ≤ status res ≤ 299) →
          to_string (message_source v (status res)) = None →
          ∃ e, (apiFetch path opts w).1 = Throw e ∧
               err_status e = None ∧ err_data e = None)
     | Malformed why =>
         (apiFetch path opts w).1 = Throw (Error why)
     end) ∧
  (¬ indicates_json res →
     match text res with
     | TextRead t =>
         delivered (apiFetch path opts w).1 =
           Some (if decide (t = "") then VNull
                 else VObj [("message", VStr t)])
     | TextFailed why =>
         (apiFetch path opts w).1 = Throw (Error why)
     end) ∧
  (∀ params,
     content_type res = Some ("application/json" +:+ params) →
     indicates_json res) ∧
  (content_type res = Some "application/json; charset=utf-8" →
     indicates_json res) ∧
  (content_type res = None → ¬ indicates_json res).
Proof.
  intros Hsent Hnet.
  pose proof (apiFetch_run_at path opts w req Hsent) as Hrun.
  rewrite Hnet in Hrun. split_and!.
  - symmetry. apply indicates_json_includes.
  - intros Hj%indicates_json_includes. rewrite Hj in Hrun.
    destruct (json res) as [v|why]; [|done]. rewrite Hrun. split.
    + intros [Hok%ok_range | [m Hm]].
      * by rewrite Hok.
      * rewrite Hm. by destruct (ok res).
    + intros Hok%ok_false_range Hm. rewrite Hok, Hm. by eexists.
  - intros Hj%not_indicates_json_includes. rewrite Hj in Hrun.
    destruct (text res) as [t|why]; [|done]. rewrite Hrun.
    destruct (decide (t = "")) as [->|Ht].
    + by destruct (ok res).
    + apply String.eqb_neq in Ht. rewrite Ht.
      destruct (ok res); [done|]. unfold message_source. simpl.
      by rewrite Ht.
  - intros params H. by exists ("application/json" +:+ params), "", params.
  - intros H. by exists "application/json; charset=utf-8", "", "; charset=utf-8".
  - intros H (ct & _ & _ & H' & _). congruence.
Qed.

(** C2, as amended.  For every response whose body can be read (a JSON
    body that parses, a text that is received), the caller gets the body
    as the content type says: for a JSON response the parsed JSON value,
    unchanged; for a non-JSON response with a non-empty text, the object
    [{message: text}]; for a non-JSON response with an empty body,
    [null].  On a success status that value is returned; on another
    status it is attached as the error's data, provided the error
    message can be made (the value it is made of converts to a
    string). *)
Theorem apiFetch_body_by_content_type
    (path : string) (opts : Options) (w : World)
    (req : Request) (res : Response) (data : value) :
  fetch_calls (apiFetch path opts w).2 = fetch_calls w ++ [req] →
  network req = Responded res →
  (indicates_json res ∧ json res = Parsed data) ∨
  (∃ t, ¬ indicates_json res ∧ text res = TextRead t ∧ t ≠ "" ∧
        data = VObj [("message", VStr t)]) ∨
  (¬ indicates_json res ∧ text res = TextRead "" ∧ data = VNull) →
  (200 ≤ status res ≤ 299 → (apiFetch path opts w).1 = Return data) ∧
  (¬ (200 ≤ status res ≤ 299) →
   is_Some (to_string (message_source data (status res))) →
   ∃ e, (apiFetch path opts w).1 = Throw e ∧ err_data e = Some data) ∧
  (200 ≤ status res ≤ 299 ∨
   is_Some (to_string (message_source data (status res))) →
   delivered (apiFetch path opts w).1 = Some data).
Proof.
  intros Hsent Hnet Hbody.
  assert (reads_as res data) as Hread.
  { destruct Hbody as [[? ?] | [(t & ? & ? & ? & ->) | (? & ? & ->)]];
      by econstructor. }
  rewrite (apiFetch_answered path opts w req res data) by done.
  split_and!.
  - intros Hok%ok_range. by rewrite Hok.
  - intros Hok%ok_false_range [m Hm]. rewrite Hok, Hm. eauto.
  - intros [Hok%ok_range | [m Hm]].
    + by rewrite Hok.
    + rewrite Hm. by destruct (ok res).
Qed.

(** C6, as amended.  For every response with a status in the success
    range whose body can be read (for a JSON response: the body parses),
    [apiFetch] throws nothing and returns the body as read, whatever its
    shape; for an empty non-JSON body that is [null]. *)
Theorem apiFetch_success_returns_body
    (path : string) (opts : Options) (w : World)
    (req : Request) (res : Response) (data : value) :
  fetch_calls (apiFetch path opts w).2 = fetch_calls w ++ [req] →
  network req = Responded res →
  200 ≤ status res ≤ 299 →
  reads_as res data →
  (apiFetch path opts w).1 = Return data.
Proof.
  intros Hsent Hnet Hok%ok_range Hread.
  by rewrite (apiFetch_answered path opts w req res data), Hok.
Qed.

(** C1, as amended.  For every response with a non-success status whose
    body can be read, the error message is made of [data.error] if that
    is truthy, else of [data.message] if that is truthy, else of
    [Request failed with <status>].  When that value converts to a
    string, [apiFetch] throws an error whose message is that string,
    whose [status] is the response's status and whose [data] is the body
    as read.  When it does not (an object with an own [toString]
    property), [apiFetch] throws the conversion's error, which has
    neither [status] nor [data]. *)
Theorem apiFetch_failure_error
    (path : string) (opts : Options) (w : World)
    (req : Request) (res : Response) (data : value) :
  fetch_calls (apiFetch path opts w).2 = fetch_calls w ++ [req] →
  network req = Responded res →
  ¬ (200 ≤ status res ≤ 299) →
  reads_as res data →
  let source :=
    if truthy (get data "error") then get data "error"
    else if truthy (get data "message") then get data "message"
    else VStr ("Request failed with " +:+ pretty (status res)) in
  (∀ m, to_string source = Some m →
     (apiFetch path opts w).1 =
       Throw {| message := m;
                err_status := Some (status res);
                err_data := Some data |}) ∧
  (to_string source = None →
     ∃ e, (apiFetch path opts w).1 = Throw e ∧
          err_status e = None ∧ err_data e = None).
Proof.
  intros Hsent Hnet Hok%ok_false_range Hread source.
  rewrite (apiFetch_answered path opts w req res data), Hok by done.
  fold source. change (message_source data (status res)) with source.
  split.
  - by intros m ->.
  - intros ->. by eexists.
Qed.

End Client.

(** *** Token persistence *)



(** Every way a run of [storeTokens] can go: the argument, each of the
    two properties, its conversion and the answer of the storage [q]. *)
Ltac storeTokens_runs_with q :=
  unfold Api.storeTokens, setItem, mbind, M_bind, mret, M_ret;
  repeat match goal with
    | H : q ?m ?k ?s = _ |- context [q ?m ?k ?s] =>
        rewrite H; cbn -[to_string]
    | H : to_string ?v = _ |- context [to_string ?v] =>
        rewrite H; cbn -[to_string]
    | |- context [truthy ?v] =>
        let H := fresh "Htruthy" in destruct (truthy v) eqn:H; cbn -[to_string]
    | |- context [to_string ?v] =>
        let H := fresh "Hstring" in
        destruct (to_string v) eqn:H; cbn -[to_string]
    | |- context [q ?m ?k ?s] =>
        let H := fresh "Hquota" in
        destruct (q m k s) eqn:H; cbn -[to_string]
    end.

Section Storage.

Variable quota : Quota.

Abbreviation storeTokens := (Api.storeTokens quota).

Ltac storeTokens_runs := storeTokens_runs_with quota.

(** [storeTokens] sends nothing. *)
Lemma storeTokens_calls (tokenObj : value) (w : World) :
  fetch_calls (storeTokens tokenObj w).2 = fetch_calls w.
Proof. storeTokens_runs; done. Qed.


(** What a completed [storeTokens] leaves under the two keys. *)
Lemma storeTokens_lookup (tokenObj : value) (w : World) (key : string) :
  key = "access_token" ∨ key = "refresh_token" →
  (storeTokens tokenObj w).1 = Return () →
  localStorage (storeTokens tokenObj w).2 !! key =
    if truthy tokenObj && truthy (get tokenObj key)
    then to_string (get tokenObj key)
    else localStorage w !! key.
Proof.
  intros [-> | ->]; storeTokens_runs; intros; simplify_eq;
    repeat (rewrite lookup_insert_eq || rewrite lookup_insert_ne by done);
    done.
Qed.

(** The access token is written first: it is stored as soon as the
    storage takes it. *)
Lemma storeTokens_access_stored (tokenObj : value) (w : World) (a : string) :
  get tokenObj "access_token" = VStr a → a ≠ "" →
  quota w "access_token" a = None →
  localStorage (storeTokens tokenObj w).2 !! "access_token" = Some a.
Proof.
  intros Hget Ha%String.eqb_neq Hq.
  assert (truthy tokenObj = true) as Ht by (by destruct tokenObj).
  unfold Api.storeTokens. rewrite Ht, Hget. storeTokens_runs;
    cbn in *; simplify_eq;
    repeat (rewrite lookup_insert_eq || rewrite lookup_insert_ne by done);
    first [congruence | by rewrite Ha in *].
Qed.

(** C9. [storeTokens] tests each property for truthiness, not for
    existence: when [access_token] (or [refresh_token]) is the empty
    string there is no call to [setItem] for that key and its stored
    value stays, and [storeTokens({access_token: ""})] leaves the world
    as it was. *)
Theorem storeTokens_empty_string_not_written
    (tokenObj : value) (key : string) (w : World) :
  key = "access_token" ∨ key = "refresh_token" →
  get tokenObj key = VStr "" →
  (∃ ws,
     setItem_calls (storeTokens tokenObj w).2 = setItem_calls w ++ ws ∧
     key ∉ ws.*1) ∧
  localStorage (storeTokens tokenObj w).2 !! key = localStorage w !! key ∧
  storeTokens (VObj [(key, VStr "")]) w = (Return (), w).
Proof.
  intros Hkey Hget. split_and!.
  - destruct Hkey as [-> | ->];
      unfold Api.storeTokens; rewrite Hget; storeTokens_runs;
      eexists; (split;
        [first [ reflexivity | symmetry; apply app_nil_r ]|]);
      set_solver.
  - destruct Hkey as [-> | ->];
      unfold Api.storeTokens; rewrite Hget; storeTokens_runs;
      rewrite ?lookup_insert_ne by done; done.
  - destruct w as [ls sc fc]. by destruct Hkey as [-> | ->].
Qed.

(** *** What is posted *)

Lemma escape_char_plain (c : ascii) :
  plain_char c = true → escape_char c = String c "".
Proof.
  unfold plain_char, escape_char.
  rewrite !andb_true_iff, !negb_true_iff, N.leb_le.
  intros [[-> ->] Hn].
  repeat match goal with
    | |- context [(?a =? ?b)%N] =>
        destruct (N.eqb_spec a b); [lia|]
    end.
  by destruct (N.ltb_spec (N_of_ascii c) 32); [lia|].
Qed.

Lemma escape_plain (s : string) : plain s → escape s = s.
Proof.
  unfold plain. induction s as [|c s IH]; simpl; [done|].
  intros [Hc Hs]%Forall_cons. rewrite (escape_char_plain c Hc). simpl.
  by rewrite IH.
Qed.

(** [JSON.stringify] puts a plain string between quotes as it is. *)
Lemma quote_plain (s : string) : plain s → quote s = quoted s.
Proof. intros H. unfold quote, quoted. by rewrite escape_plain. Qed.

(** *** Token refresh *)

Section Refresh.

Variable VITE_API_BASE : option string.
Variable network : Request → FetchResult.

Abbreviation API_BASE := (Api.API_BASE VITE_API_BASE).
Abbreviation apiFetch := (Api.apiFetch VITE_API_BASE network).
Abbreviation refreshToken := (Api.refreshToken VITE_API_BASE network quota).

(** The options of the refresh request for the stored token [t]. *)
Abbreviation refresh_options t :=
  {| method := Some "POST";
     body := Some (JSON_stringify [("refresh_token", t)]);
     headers := None |}.

(** The world after the request [req] has been sent from [w]. *)
Abbreviation sent w req :=
  {| localStorage := localStorage w; setItem_calls := setItem_calls w;
     fetch_calls := fetch_calls w ++ [req] |}.

Lemma refreshToken_run (w : World) :
  refreshToken w =
    match localStorage w !! "refresh_token" with
    | Some t =>
        if String.eqb t "" then
          (Throw (Error "No refresh token found"), w)
        else
          match apiFetch "/auth/refresh" (refresh_options t) w with
          | (Return data, w1) =>
              match storeTokens data w1 with
              | (Return _, w2) => (Return data, w2)
              | (Throw e, w2) => (Throw e, w2)
              end
          | (Throw e, w1) => (Throw e, w1)
          end
    | None => (Throw (Error "No refresh token found"), w)
    end.
Proof.
  unfold Api.refreshToken, getItem, throw, mbind, M_bind, mret, M_ret.
  destruct (localStorage w !! "refresh_token") as [t|]; simpl; [|done].
  destruct (String.eqb t ""); simpl; [done|].
  destruct (apiFetch _ _ w) as [[data|e] w1]; [|done].
  by destruct (Api.storeTokens quota data w1) as [[[]|e] w2].
Qed.

(** What [refreshToken] sends when the token [t] is stored. *)
Lemma refreshToken_sends (w : World) (t : string) :
  localStorage w !! "refresh_token" = Some t → t ≠ "" →
  ∃ req,
    fetch_calls (refreshToken w).2 = fetch_calls w ++ [req] ∧
    url req = API_BASE +:+ "/auth/refresh" ∧
    req_method req = Some "POST" ∧
    req_body req = Some (JSON_stringify [("refresh_token", t)]) ∧
    (apiFetch "/auth/refresh" (refresh_options t) w).2 = sent w req ∧
    refreshToken w =
      match apiFetch "/auth/refresh" (refresh_options t) w with
      | (Return data, w1) =>
          match storeTokens data w1 with
          | (Return _, w2) => (Return data, w2)
          | (Throw e, w2) => (Throw e, w2)
          end
      | (Throw e, w1) => (Throw e, w1)
      end.
Proof.
  intros Hstored Ht%String.eqb_neq.
  rewrite refreshToken_run, Hstored, Ht.
  destruct (apiFetch_run VITE_API_BASE network "/auth/refresh"
              (refresh_options t) w)
    as (req & (Hu & Hm & Hb & _) & Hrun).
  exists req. rewrite Hrun. cbn [fst snd]. split_and!; try done.
  destruct (match network req with Responded _ => _ | _ => _ end)
    as [data|e]; [|done].
  pose proof (storeTokens_calls data (sent w req)) as Hcalls.
  by destruct (Api.storeTokens quota data (sent w req)) as [[[]|e] w2].
Qed.

(** C4, as amended.  When no refresh token is stored (the key is
    missing, or holds the empty string), [refreshToken] throws [No
    refresh token found] at once: the world is as it was, so no request
    was sent.  When a refresh token is stored, exactly one request is
    sent: a POST to the base address followed by [/auth/refresh], whose
    body is the JSON object with that token, quoted, under
    [refresh_token].  When the answer has a success status and its body
    reads as [data], [data] is handed to [storeTokens]: the pair is
    returned when [storeTokens] completes, and the error of
    [storeTokens] is thrown, after what it had already written, when it
    does not. *)
Theorem refreshToken_posts_stored_token (w : World) :
  (localStorage w !! "refresh_token" = None ∨
   localStorage w !! "refresh_token" = Some "" →
   refreshToken w = (Throw (Error "No refresh token found"), w)) ∧
  (∀ t, localStorage w !! "refresh_token" = Some t → t ≠ "" →
     ∃ req,
       fetch_calls (refreshToken w).2 = fetch_calls w ++ [req] ∧
       url req = API_BASE +:+ "/auth/refresh" ∧
       req_method req = Some "POST" ∧
       req_body req
       = Some ("{" +:+ quoted "refresh_token" +:+ ":" +:+ quote t +:+ "}") ∧
       (plain t →
        req_body req
        = Some ("{" +:+ quoted "refresh_token" +:+ ":" +:+ quoted t
                +:+ "}")) ∧
       ∀ res data,
         network req = Responded res →
         200 ≤ status res ≤ 299 →
         reads_as res data →
         ((storeTokens data (sent w req)).1 = Return () →
          refreshToken w
          = (Return data, (storeTokens data (sent w req)).2)) ∧
         (∀ e, (storeTokens data (sent w req)).1 = Throw e →
          refreshToken w
          = (Throw e, (storeTokens data (sent w req)).2))).
Proof.
  split.
  - rewrite refreshToken_run. by intros [-> | ->].
  - intros t Hstored Ht.
    destruct (refreshToken_sends w t Hstored Ht)
      as (req & Hsent & Hu & Hm & Hb & Hw & Hrun).
    exists req. split_and!; try done.
    + intros Hplain. by rewrite Hb, <-(quote_plain t Hplain).
    + intros res data Hnet Hok%ok_range Hread.
      assert (fetch_calls (apiFetch "/auth/refresh" (refresh_options t) w).2
              = fetch_calls w ++ [req]) as Hsent_api by (by rewrite Hw).
      pose proof (apiFetch_answered VITE_API_BASE network _ _ w req res
                    data Hsent_api Hnet Hread) as Hout.
      rewrite Hok in Hout. rewrite Hrun.
      destruct (apiFetch "/auth/refresh" _ w) as [out w1].
      cbn [fst snd] in *. subst out w1.
      destruct (Api.storeTokens quota data (sent w req)) as [[[]|e] w2];
        cbn [fst snd]; split; try done; by intros e' [= ->].
Qed.

(** C8. A failed POST leaves the storage alone: when the refresh
    request is rejected by the network, answered with a non-success
    status, or answered with a body that cannot be read, [refreshToken]
    throws and the world is the one before with the request added: no
    call to [setItem] was made and the stored values are as before,
    [storeTokens] being called only after [apiFetch] has returned. *)
Theorem refreshToken_failure_writes_nothing (w : World) :
  ∀ t req,
    localStorage w !! "refresh_token" = Some t → t ≠ "" →
    fetch_calls (refreshToken w).2 = fetch_calls w ++ [req] →
    (∀ why, network req = Rejected why →
       refreshToken w = (Throw (Error why), sent w req)) ∧
    (∀ res, network req = Responded res →
       ¬ (200 ≤ status res ≤ 299) ∨ (∀ data, ¬ reads_as res data) →
       ∃ e, refreshToken w = (Throw e, sent w req)) ∧
    (∀ e w1,
       apiFetch "/auth/refresh" (refresh_options t) w = (Throw e, w1) →
       refreshToken w = (Throw e, w1) ∧
       localStorage w1 = localStorage w ∧
       setItem_calls w1 = setItem_calls w).
Proof.
  intros t req Hstored Ht Hsent.
  destruct (refreshToken_sends w t Hstored Ht)
    as (req' & Hsent' & _ & _ & _ & Hw & Hrun).
  assert (req' = req) as ->.
  { rewrite Hsent' in Hsent. by apply app_inj_tail in Hsent as [_ ?]. }
  assert (fetch_calls (apiFetch "/auth/refresh" (refresh_options t) w).2
          = fetch_calls w ++ [req]) as Hsent_api by (by rewrite Hw).
  pose proof (apiFetch_run_at VITE_API_BASE network _ _ w req Hsent_api)
    as Hout.
  rewrite Hrun. clear Hrun.
  destruct (apiFetch "/auth/refresh" _ w) as [out w1].
  cbn [fst snd] in *. subst w1 out. split_and!.
  - by intros why ->.
  - intros res -> Hfail.
    destruct (includes _ _) eqn:Hinc.
    + destruct (json res) as [v|why] eqn:Hv; [|eauto].
      destruct Hfail as [Hok%ok_false_range | Hno].
      * rewrite Hok. destruct (to_string _); eauto.
      * destruct (Hno v). apply reads_json; [|done].
        by apply indicates_json_includes.
    + destruct (text res) as [t'|why] eqn:Htext; [|eauto].
      destruct Hfail as [Hok%ok_false_range | Hno].
      * rewrite Hok. destruct (to_string _); eauto.
      * apply not_indicates_json_includes in Hinc.
        destruct (String.eqb_spec t' "") as [->|Hne].
        -- destruct (Hno VNull). by apply reads_empty.
        -- destruct (Hno (VObj [("message", VStr t')])).
           by apply (reads_text res t').
  - intros e w1 Heq. by destruct (match network req with
      | Responded _ => _ | _ => _ end); simplify_eq.
Qed.

End Refresh.

End Storage.

End ApiFacts.

(** ** Properties of the login form *)

Module LoginFacts.
Import Js Api Login.

(** A truthy value is printed by [join] as [String] prints it. *)
Lemma join_item_truthy (x : value) :
  truthy x = true → join_item x = to_string x.
Proof. by destruct x. Qed.

(** The handler's [map], [filter] and [join] over the detail items give
    the messages the items show, separated. *)
Lemma join_detail_messages (items : list value) (shown : list string) :
  detail_messages items shown →
  join ", " (List.filter truthy (List.map (λ d, get d "msg") items))
  = Some (String.concat ", " shown).
Proof.
  intros Hshown. unfold join.
  assert (collect (List.map join_item
            (List.filter truthy (List.map (λ d, get d "msg") items)))
          = Some shown) as ->; [|done].
  induction Hshown as [|d items shown Hd _ IH|d items s shown Hd Hs _ IH];
    cbn [List.map List.filter collect]; [done|by rewrite Hd|].
  rewrite Hd. cbn [List.map collect].
  by rewrite (join_item_truthy _ Hd), Hs, IH.
Qed.

Section Handler.

Variable VITE_API_BASE : option string.
Variable network : Request → FetchResult.
Variable quota : Quota.

Abbreviation login := (Api.login VITE_API_BASE network).
Abbreviation onSubmit := (Login.onSubmit VITE_API_BASE network quota).

(** The credentials the handler submits: the form's fields. *)
Abbreviation credentials f :=
  {| Api.email := Login.email f; Api.password := Login.password f;
     Api.role := Login.role f |}.

(** What the handler leaves on the screen when [login] throws an error
    it can make a message of. *)
Lemma onSubmit_catch
    (f : Form) (w w1 : World) (err : JsError) (msg : string) :
  login (credentials f) w = (Throw err, w1) →
  catch_message err = Some msg →
  error (onSubmit f w).2.1 = msg.
Proof.
  unfold Login.onSubmit, catch_block. simpl. intros -> ->. done.
Qed.

(** The first request the handler's [login] sends decides how it ends,
    when that request is answered with a readable body and a
    non-success status whose message can be made. *)
Lemma login_rejected
    (f : Form) (w : World) (req : Request) (res : Response)
    (data : value) (m : string) :
  fetch_calls (login (credentials f) w).2 = fetch_calls w ++ [req] →
  network req = Responded res →
  ¬ (200 ≤ status res ≤ 299) →
  reads_as res data →
  to_string (message_source data (status res)) = Some m →
  ∃ w1,
    login (credentials f) w
    = (Throw {| Api.message := m; err_status := Some (status res);
                err_data := Some data |}, w1).
Proof.
  intros Hsent Hnet Hok%ApiFacts.ok_false_range Hread Hm.
  pose proof (ApiFacts.apiFetch_answered VITE_API_BASE network _ _ w req
                res data Hsent Hnet Hread) as Hout.
  rewrite Hok, Hm in Hout.
  destruct (login (credentials f) w) as [out w1] eqn:Hlogin.
  unfold Api.login in Hlogin. rewrite Hlogin in Hout.
  cbn [fst] in Hout. subst out. by exists w1.
Qed.

(** C7. When [login] throws an error whose data carries a list under
    [detail], the form displays the messages of the list's items, in
    order, joined by a comma and a space: the [msg] of every item that
    has one.  When the login request is answered with status 422 and the
    JSON body [{detail: [{msg: "value is not a valid email address"}]}],
    the form displays exactly that string; when the body carries two
    items with the messages [m1] and [m2], it displays [m1, m2].
    Otherwise it displays the error's own message, or [Login failed]
    when that is empty.  Whatever the outcome, the loading flag is off
    when the handler has finished. *)
Theorem onSubmit_displays_error (f : Form) (w : World) :
  loading (onSubmit f w).2.1 = false ∧
  (∀ err w1 data items shown,
     login (credentials f) w = (Throw err, w1) →
     err_data err = Some data →
     get data "detail" = VArr items →
     detail_messages items shown →
     error (onSubmit f w).2.1 = String.concat ", " shown) ∧
  (∀ req res,
     fetch_calls (login (credentials f) w).2 = fetch_calls w ++ [req] →
     network req = Responded res →
     status res = 422 →
     indicates_json res →
     (json res
      = Parsed (VObj [("detail",
                       VArr [VObj [("msg",
                         VStr "value is not a valid email address")]])]) →
      error (onSubmit f w).2.1 = "value is not a valid email address") ∧
     (∀ m1 m2,
        m1 ≠ "" → m2 ≠ "" →
        json res
        = Parsed (VObj [("detail",
                         VArr [VObj [("msg", VStr m1)];
                               VObj [("msg", VStr m2)]])]) →
        error (onSubmit f w).2.1 = m1 +:+ ", " +:+ m2)) ∧
  (∀ err w1,
     login (credentials f) w = (Throw err, w1) →
     (∀ data, err_data err = Some data →
              isArray (get data "detail") = false) →
     error (onSubmit f w).2.1
     = if decide (Api.message err = "") then "Login failed"
       else Api.message err).
Proof.
  split_and!.
  - unfold Login.onSubmit, catch_block. simpl.
    destruct (Api.login _ _ _ w) as [[res|err] w1]; simpl.
    + destruct (truthy _); [|done].
      destruct (Api.storeTokens _ _ _) as [[[]|err] w2]; [done|].
      by destruct (catch_message err).
    + by destruct (catch_message err).
  - intros err w1 data items shown Hthrow Hdata Hdetail Hshown.
    apply (onSubmit_catch f w w1 err _ Hthrow).
    unfold catch_message. rewrite Hdata, Hdetail.
    by apply join_detail_messages.
  - intros req res Hsent Hnet Hst Hj.
    assert (¬ (200 ≤ status res ≤ 299)) as Hok by (rewrite Hst; lia).
    split.
    + intros Hbody.
      destruct (login_rejected f w req res _ "Request failed with 422"
                  Hsent Hnet Hok (reads_json res _ Hj Hbody))
        as [w1 Hlogin]; [by rewrite Hst|].
      by apply (onSubmit_catch f w w1 _ _ Hlogin).
    + intros m1 m2 Hm1%String.eqb_neq Hm2%String.eqb_neq Hbody.
      destruct (login_rejected f w req res _ "Request failed with 422"
                  Hsent Hnet Hok (reads_json res _ Hj Hbody))
        as [w1 Hlogin]; [by rewrite Hst|].
      apply (onSubmit_catch f w w1 _ _ Hlogin).
      unfold catch_message, join. simpl. by rewrite Hm1, Hm2.
  - intros err w1 Hthrow Hnot.
    apply (onSubmit_catch f w w1 err _ Hthrow).
    unfold catch_message.
    assert (isArray match err_data err with
                    | Some data => get data "detail"
                    | None => VUndef
                    end = false) as Harr.
    { destruct (err_data err) as [data|]; [by apply Hnot | done]. }
    destruct (match err_data err with Some _ => _ | None => _ end);
      try done;
      (destruct (decide (Api.message err = "")) as [Hm|Hne];
       [by rewrite Hm | apply String.eqb_neq in Hne; by rewrite Hne]).
Qed.

End Handler.

End LoginFacts.

(** ** The properties at concrete inputs *)

Module Scenarios.
Import Js Api.

(** C1: a 401 with [{error: "Invalid credentials"}]. *)
Lemma apiFetch_failure_error_witness :
  (Api.apiFetch None
     (always (json_response 401 "application/json"
                (VObj [("error", VStr "Invalid credentials")])))
     "/auth/login" no_options empty_world).1
  = Throw {| message := "Invalid credentials";
             err_status := Some 401;
             err_data := Some (VObj [("error", VStr "Invalid credentials")]) |}.
Proof.
  apply (ApiFacts.apiFetch_failure_error None
           (always (json_response 401 "application/json"
                      (VObj [("error", VStr "Invalid credentials")])))
           "/auth/login" no_options
           empty_world (anonymous_request "/auth/login" None None)
           (json_response 401 "application/json"
              (VObj [("error", VStr "Invalid credentials")]))
           (VObj [("error", VStr "Invalid credentials")])).
  - vm_compute. reflexivity.
  - reflexivity.
  - simpl. lia.
  - apply reads_json; [|reflexivity].
    exists "application/json", "", "". split; reflexivity.
  - reflexivity.
Defined.

(** C1 as stated fails: with the body [{error: "", message: "boom"}] the
    property [error] is present and the message is not its value; with
    [{error: {code: 1}}] the message is [[object Object]], not the value
    of [error]; with an [error] object that shadows [toString] no
    message can be made and the error thrown has no [status]; and a JSON
    response whose body does not parse makes [apiFetch] throw the
    parser's error, which has no [status]. *)
Lemma apiFetch_failure_error_counterexample :
  (let data := VObj [("error", VStr ""); ("message", VStr "boom")] in
   ∃ e,
     (Api.apiFetch None (always (json_response 400 "application/json" data))
        "/auth/login" no_options empty_world).1 = Throw e ∧
     err_data e = Some data ∧
     has_key data "error" = true ∧
     message e = "boom" ∧
     VStr (message e) ≠ stated_message data 400) ∧
  (let data := VObj [("error", VObj [("code", VNum one)])] in
   ∃ e,
     (Api.apiFetch None (always (json_response 400 "application/json" data))
        "/auth/login" no_options empty_world).1 = Throw e ∧
     err_data e = Some data ∧
     message e = "[object Object]" ∧
     VStr (message e) ≠ stated_message data 400) ∧
  (∃ e,
     (Api.apiFetch None
        (always (json_response 400 "application/json" shadowed_error_body))
        "/auth/login" no_options empty_world).1 = Throw e ∧
     err_status e ≠ Some 400 ∧ err_data e = None) ∧
  (∃ e,
     (Api.apiFetch None (always (empty_json_response 500))
        "/auth/login" no_options empty_world).1 = Throw e ∧
     err_status e ≠ Some (status (empty_json_response 500))).
Proof.
  split_and!; eexists; (split; [vm_compute; reflexivity|]); simpl;
    split_and?; done.
Defined.

(** C2: a plain-text 500. *)
Lemma apiFetch_body_by_content_type_witness :
  let res := text_response 500 (Some "text/plain") "Internal Server Error" in
  let out := (Api.apiFetch None (always res) "/auth/me" no_options
                logged_in_world).1 in
  (200 ≤ status res ≤ 299 →
   out = Return (VObj [("message", VStr "Internal Server Error")])) ∧
  (¬ (200 ≤ status res ≤ 299) →
   is_Some (to_string
              (message_source
                 (VObj [("message", VStr "Internal Server Error")])
                 (status res))) →
   ∃ e, out = Throw e ∧
        err_data e = Some (VObj [("message", VStr "Internal Server Error")])) ∧
  (200 ≤ status res ≤ 299 ∨
   is_Some (to_string
              (message_source
                 (VObj [("message", VStr "Internal Server Error")])
                 (status res))) →
   delivered out = Some (VObj [("message", VStr "Internal Server Error")])).
Proof.
  apply (ApiFacts.apiFetch_body_by_content_type None
           (always (text_response 500 (Some "text/plain")
                      "Internal Server Error"))
           "/auth/me" no_options
           logged_in_world (bearer_request "/auth/me" None None)
           (text_response 500 (Some "text/plain") "Internal Server Error")
           (VObj [("message", VStr "Internal Server Error")])).
  - vm_compute. reflexivity.
  - reflexivity.
  - right. left. exists "Internal Server Error". split_and!; [|done..].
    intros Hj%ApiFacts.indicates_json_includes. vm_compute in Hj. done.
Defined.

(** C2 as stated fails: a response that announces JSON and carries an
    empty body hands the caller neither a parsed value nor [null], the
    call throws the parser's error; and a parsed body whose [error]
    shadows [toString], on a failure status, is not attached to the
    error thrown. *)
Lemma apiFetch_body_counterexample :
  (indicates_json (empty_json_response 200) ∧
   text (empty_json_response 200) = TextRead "" ∧
   (Api.apiFetch None (always (empty_json_response 200))
      "/auth/me" no_options logged_in_world).1
   = Throw (Error "Unexpected end of JSON input") ∧
   delivered
     (Api.apiFetch None (always (empty_json_response 200))
        "/auth/me" no_options logged_in_world).1 = None) ∧
  (json (json_response 400 "application/json" shadowed_error_body)
   = Parsed shadowed_error_body ∧
   delivered
     (Api.apiFetch None
        (always (json_response 400 "application/json" shadowed_error_body))
        "/auth/me" no_options logged_in_world).1 = None).
Proof.
  split_and!; try reflexivity.
  by exists "application/json", "", "".
Defined.

(** C4: with no token stored nothing is sent; with [R0] stored it is
    posted, and the pair the server returns is persisted and returned
    when the storage takes it. *)
Lemma refreshToken_posts_stored_token_witness :
  let server :=
    always (json_response 200 "application/json" (token_pair "T1" "R1")) in
  Api.refreshToken None server unlimited empty_world
  = (Throw (Error "No refresh token found"), empty_world) ∧
  (∃ req,
     fetch_calls (Api.refreshToken None server unlimited logged_in_world).2
     = [req] ∧
     req_body req
     = Some ("{" +:+ quoted "refresh_token" +:+ ":" +:+ quoted "R0"
             +:+ "}")) ∧
  (Api.refreshToken None server unlimited logged_in_world).1
  = Return (token_pair "T1" "R1") ∧
  localStorage (Api.refreshToken None server unlimited logged_in_world).2
    !! "refresh_token" = Some "R1" ∧
  localStorage (Api.refreshToken None server unlimited logged_in_world).2
    !! "access_token" = Some "T1".
Proof.
  intros server. split.
  - apply (proj1 (ApiFacts.refreshToken_posts_stored_token unlimited None
                    server empty_world)).
    left. reflexivity.
  - destruct (proj2 (ApiFacts.refreshToken_posts_stored_token unlimited
                       None server logged_in_world) "R0" eq_refl
                ltac:(done))
      as (req & Hsent & _ & _ & _ & Hplain & Hret).
    split.
    + exists req. split; [exact Hsent|]. apply Hplain.
      repeat constructor.
    + destruct (Hret (json_response 200 "application/json"
                        (token_pair "T1" "R1"))
                  (token_pair "T1" "R1")) as [Hdone _].
      * reflexivity.
      * simpl. lia.
      * apply reads_json; [|reflexivity].
        exists "application/json", "", "". split; reflexivity.
      * rewrite Hdone by reflexivity. split_and!; reflexivity.
Defined.

(** C4 as stated fails: the answer carries a pair, the storage takes
    the access token and refuses the longer refresh token, and
    [refreshToken] throws instead of returning the pair, with the new
    access token stored beside the old refresh token. *)
Lemma refreshToken_counterexample :
  let server :=
    always (json_response 200 "application/json"
              (token_pair "T1" "R1-long")) in
  (Api.refreshToken None server tight logged_in_world).1
  = Throw (Error "The quota has been exceeded.") ∧
  localStorage (Api.refreshToken None server tight logged_in_world).2
    !! "access_token" = Some "T1" ∧
  localStorage (Api.refreshToken None server tight logged_in_world).2
    !! "refresh_token" = Some "R0".
Proof. split_and!; reflexivity. Defined.

(** C6: a 204 without content type and body returns [null]. *)
Lemma apiFetch_success_returns_body_witness :
  (Api.apiFetch None (always (text_response 204 None ""))
     "/auth/me" no_options logged_in_world).1 = Return VNull.
Proof.
  apply (ApiFacts.apiFetch_success_returns_body None
           (always (text_response 204 None "")) "/auth/me" no_options
           logged_in_world (bearer_request "/auth/me" None None)
           (text_response 204 None "") VNull).
  - vm_compute. reflexivity.
  - reflexivity.
  - simpl. lia.
  - apply reads_empty; [|reflexivity].
    intros (ct & _ & _ & H & _). discriminate H.
Defined.

(** C6 as stated fails: a response with status 200 that announces JSON
    and carries an empty body makes [apiFetch] throw. *)
Lemma apiFetch_success_counterexample :
  200 ≤ status (empty_json_response 200) ≤ 299 ∧
  ok (empty_json_response 200) = true ∧
  (Api.apiFetch None (always (empty_json_response 200))
     "/auth/me" no_options logged_in_world).1
  = Throw (Error "Unexpected end of JSON input").
Proof. split_and!; [simpl; lia | simpl; lia | reflexivity | vm_compute; reflexivity]. Defined.

(** C7: two complaints and an item without message, joined; the
    rejected e-mail alone. *)
Lemma onSubmit_displays_error_witness :
  Login.error
    (Login.onSubmit None
       (always (json_response 422 "application/json" two_details_body))
       unlimited Login.initial empty_world).2.1
  = "field required, value is not a valid email address" ∧
  Login.error
    (Login.onSubmit None
       (always (json_response 422 "application/json" invalid_email_body))
       unlimited Login.initial empty_world).2.1
  = "value is not a valid email address" ∧
  Login.loading
    (Login.onSubmit None
       (always (json_response 422 "application/json" invalid_email_body))
       unlimited Login.initial empty_world).2.1
  = false.
Proof.
  split; [|split].
  - destruct (LoginFacts.onSubmit_displays_error None
                (always (json_response 422 "application/json"
                           two_details_body))
                unlimited Login.initial empty_world)
      as (_ & Hjoin & _).
    apply (Hjoin
             {| message := "Request failed with 422";
                err_status := Some 422;
                err_data := Some two_details_body |}
             first_login_sent two_details_body
             [VObj [("msg", VStr "field required")];
              VObj [("loc", VStr "body")];
              VObj [("msg", VStr "value is not a valid email address")]]
             ["field required"; "value is not a valid email address"]).
    + vm_compute. reflexivity.
    + reflexivity.
    + reflexivity.
    + apply detail_keep; [reflexivity..|].
      apply detail_skip; [reflexivity|].
      apply detail_keep; [reflexivity..|]. apply detail_none.
  - destruct (LoginFacts.onSubmit_displays_error None
                (always (json_response 422 "application/json"
                           invalid_email_body))
                unlimited Login.initial empty_world)
      as (_ & _ & H422 & _).
    apply (H422 first_login_request
             (json_response 422 "application/json" invalid_email_body)).
    + vm_compute. reflexivity.
    + reflexivity.
    + reflexivity.
    + exists "application/json", "", "". split; reflexivity.
    + reflexivity.
  - apply (LoginFacts.onSubmit_displays_error None
             (always (json_response 422 "application/json"
                        invalid_email_body))
             unlimited Login.initial empty_world).
Defined.

(** C8: the network is down, the stored tokens stay. *)
Lemma refreshToken_failure_writes_nothing_witness :
  Api.refreshToken None offline unlimited logged_in_world
  = (Throw (Error "Failed to fetch"),
     {| localStorage := localStorage logged_in_world;
        setItem_calls := [];
        fetch_calls :=
          [bearer_request "/auth/refresh" (Some "POST")
             (Some ("{" +:+ quoted "refresh_token" +:+ ":" +:+ quoted "R0"
                    +:+ "}"))] |}).
Proof.
  destruct (ApiFacts.refreshToken_failure_writes_nothing unlimited None
              offline logged_in_world "R0"
              (bearer_request "/auth/refresh" (Some "POST")
                 (Some ("{" +:+ quoted "refresh_token" +:+ ":" +:+
                        quoted "R0" +:+ "}")))
              eq_refl ltac:(done)) as [Hrej _].
  { vm_compute. reflexivity. }
  exact (Hrej "Failed to fetch" eq_refl).
Defined.

(** C9: an empty access token beside a refresh token. *)
Lemma storeTokens_empty_string_witness :
  (∃ ws,
     setItem_calls
       (Api.storeTokens unlimited
          (VObj [("access_token", VStr ""); ("refresh_token", VStr "R1")])
          logged_in_world).2
     = setItem_calls logged_in_world ++ ws ∧
     "access_token" ∉ ws.*1) ∧
  localStorage
    (Api.storeTokens unlimited
       (VObj [("access_token", VStr ""); ("refresh_token", VStr "R1")])
       logged_in_world).2 !! "access_token"
  = localStorage logged_in_world !! "access_token" ∧
  Api.storeTokens unlimited (VObj [("access_token", VStr "")])
    logged_in_world
  = (Return (), logged_in_world).
Proof.
  apply (ApiFacts.storeTokens_empty_string_not_written unlimited
           (VObj [("access_token", VStr ""); ("refresh_token", VStr "R1")])
           "access_token" logged_in_world).
  - left. reflexivity.
  - reflexivity.
Defined.

(** C10: a JSON content type with a charset parameter. *)
Lemma apiFetch_json_by_substring_witness :
  let res :=
    json_response 200 "application/json; charset=utf-8"
      (token_pair "T1" "R1") in
  indicates_json res ∧
  delivered (Api.apiFetch None (always res) "/auth/me" no_options
               logged_in_world).1
  = Some (token_pair "T1" "R1").
Proof.
  intros res.
  destruct (ApiFacts.apiFetch_json_by_substring None (always res)
              "/auth/me" no_options logged_in_world
              (bearer_request "/auth/me" None None) res)
    as (_ & Hjson & _ & _ & Hcharset & _).
  - vm_compute. reflexivity.
  - reflexivity.
  - split; [exact (Hcharset eq_refl)|].
    apply (Hjson (Hcharset eq_refl)). left. simpl. lia.
Defined.

End Scenarios.

(** ** More properties of the client *)

Module ApiMore.
Import Js Api.

Lemma API_BASE_cases (base : option string) :
  Api.API_BASE base =
    match base with
    | Some s => if decide (s = "") then "http://localhost:8000" else s
    | None => "http://localhost:8000"
    end.
Proof.
  unfold Api.API_BASE. destruct base as [s|]; [|done].
  destruct (decide (s = "")) as [->|Hne]; [done|].
  apply String.eqb_neq in Hne. by rewrite Hne.
Qed.

(** X1. The base address is never empty: the configured one when it is set
    and not empty, the local development address otherwise; and
    [getApiBase] hands out the address the requests use. *)
Theorem API_BASE_never_empty (base : option string) :
  Api.API_BASE base ≠ "" ∧
  (∀ s, base = Some s → s ≠ "" → Api.API_BASE base = s) ∧
  (base = None ∨ base = Some "" →
   Api.API_BASE base = "http://localhost:8000") ∧
  Api.getApiBase base = Api.API_BASE base.
Proof.
  split_and!; [| | |done]; rewrite API_BASE_cases.
  - destruct base as [s|]; [|done]. by destruct (decide (s = "")).
  - intros s -> Hs. by destruct (decide (s = "")).
  - by intros [-> | ->].
Qed.

Lemma append_assoc (a b c : string) : (a +:+ b) +:+ c = a +:+ (b +:+ c).
Proof.
  induction a as [|x a IH]; [done|].
  change (String x ((a +:+ b) +:+ c) = String x (a +:+ (b +:+ c))).
  by rewrite IH.
Qed.

(** The three members of the login body. *)
Lemma JSON_stringify_three (k1 v1 k2 v2 k3 v3 : string) :
  JSON_stringify [(k1, v1); (k2, v2); (k3, v3)] =
    "{" +:+ quote k1 +:+ ":" +:+ quote v1 +:+ "," +:+
    quote k2 +:+ ":" +:+ quote v2 +:+ "," +:+
    quote k3 +:+ ":" +:+ quote v3 +:+ "}".
Proof.
  unfold JSON_stringify. cbn [List.map String.concat fst snd].
  f_equal. by rewrite !append_assoc.
Qed.

Section Storage.

Variable quota : Quota.

Abbreviation storeTokens := (Api.storeTokens quota).

(** X2. Storing again a token object that has been stored changes
    nothing in the storage, whether the storage takes the second writes
    or refuses them. *)
Theorem storeTokens_idempotent (tokenObj : value) (w : World) :
  (storeTokens tokenObj w).1 = Return () →
  localStorage (storeTokens tokenObj (storeTokens tokenObj w).2).2
  = localStorage (storeTokens tokenObj w).2.
Proof.
  unfold Api.storeTokens, setItem, mbind, M_bind, mret, M_ret.
  repeat match goal with
    | H : to_string ?v = _ |- context [to_string ?v] =>
        rewrite H; cbn -[to_string]
    | |- context [truthy ?v] =>
        let H := fresh "Htruthy" in destruct (truthy v) eqn:H; cbn -[to_string]
    | |- context [to_string ?v] =>
        let H := fresh "Hstring" in
        destruct (to_string v) eqn:H; cbn -[to_string]
    | |- context [quota ?m ?k ?s] =>
        lazymatch m with
        | context [quota] => fail
        | _ => idtac
        end;
        let H := fresh "Hquota" in
        destruct (quota m k s) eqn:H; cbn -[to_string]
    end;
    try done;
    intros _; apply map_eq; intros i; rewrite !lookup_insert;
    repeat case_decide; congruence.
Qed.

(** X3. Of two token objects stored one after the other, both calls
    completing, the later one wins for each key it carries, and the
    earlier one stays for a key the later one does not carry. *)
Theorem storeTokens_last_write_wins
    (first later : value) (w : World) (key : string) :
  key = "access_token" ∨ key = "refresh_token" →
  (storeTokens first w).1 = Return () →
  (storeTokens later (storeTokens first w).2).1 = Return () →
  localStorage (storeTokens later (storeTokens first w).2).2 !! key =
    if truthy later && truthy (get later key)
    then to_string (get later key)
    else if truthy first && truthy (get first key)
         then to_string (get first key)
         else localStorage w !! key.
Proof.
  intros Hkey Hfirst Hlater.
  rewrite (ApiFacts.storeTokens_lookup quota later _ key Hkey Hlater).
  by rewrite (ApiFacts.storeTokens_lookup quota first w key Hkey Hfirst).
Qed.

End Storage.

Section Client.

Variable VITE_API_BASE : option string.
Variable network : Request → FetchResult.
Variable quota : Quota.

Abbreviation API_BASE := (Api.API_BASE VITE_API_BASE).
Abbreviation apiFetch := (Api.apiFetch VITE_API_BASE network).
Abbreviation login := (Api.login VITE_API_BASE network).
Abbreviation me := (Api.me VITE_API_BASE network).
Abbreviation refreshToken := (Api.refreshToken VITE_API_BASE network quota).
Abbreviation storeTokens := (Api.storeTokens quota).

(** The world after [apiFetch] has sent [req]. *)
Abbreviation sent w req :=
  {| localStorage := localStorage w; setItem_calls := setItem_calls w;
     fetch_calls := fetch_calls w ++ [req] |}.

(** The ways a call can go. *)
Lemma apiFetch_cases (path : string) (opts : Options) (w : World) :
  ∃ req,
    (apiFetch path opts w).2 = sent w req ∧
    ((∃ why, network req = Rejected why ∧
             (apiFetch path opts w).1 = Throw (Error why)) ∨
     (∃ res why, network req = Responded res ∧ indicates_json res ∧
                 json res = Malformed why ∧
                 (apiFetch path opts w).1 = Throw (Error why)) ∨
     (∃ res why, network req = Responded res ∧ ¬ indicates_json res ∧
                 text res = TextFailed why ∧
                 (apiFetch path opts w).1 = Throw (Error why)) ∨
     (∃ res data, network req = Responded res ∧ reads_as res data ∧
                  (apiFetch path opts w).1 =
                    if ok res then Return data
                    else
                      match to_string (message_source data (status res))
                      with
                      | Some m =>
                          Throw {| message := m;
                                   err_status := Some (status res);
                                   err_data := Some data |}
                      | None => Throw TypeError
                      end)).
Proof.
  destruct (ApiFacts.apiFetch_run VITE_API_BASE network path opts w)
    as (req & _ & Hrun).
  exists req. rewrite Hrun. cbn [fst snd]. split; [done|].
  destruct (network req) as [res|why]; [|left; eauto].
  destruct (includes _ _) eqn:Hinc.
  - apply ApiFacts.indicates_json_includes in Hinc.
    destruct (json res) as [v|why] eqn:Hv.
    + do 3 right. exists res, v. split_and!; [done|by constructor|done].
    + right; left. exists res, why. done.
  - apply ApiFacts.not_indicates_json_includes in Hinc.
    destruct (text res) as [t|why] eqn:Htext.
    + do 3 right. destruct (String.eqb t "") eqn:Ht.
      * apply String.eqb_eq in Ht as ->. exists res, VNull.
        split_and!; [done|by constructor|done].
      * apply String.eqb_neq in Ht.
        exists res, (VObj [("message", VStr t)]).
        split_and!; [done|by constructor|done].
    + right; right; left. exists res, why. done.
Qed.

(** X4. A request the network rejects makes [apiFetch] throw the network's
    error as it is: its message, no [status], no [data]. *)
Theorem apiFetch_network_failure
    (path : string) (opts : Options) (w : World)
    (req : Request) (why : string) :
  fetch_calls (apiFetch path opts w).2 = fetch_calls w ++ [req] →
  network req = Rejected why →
  apiFetch path opts w =
    (Throw {| message := why; err_status := None; err_data := None |},
     sent w req).
Proof.
  intros Hsent Hnet.
  destruct (ApiFacts.apiFetch_run VITE_API_BASE network path opts w)
    as (req' & _ & Hrun).
  assert (req' = req) as ->
    by (eapply ApiFacts.sent_request; [done | by rewrite Hrun]).
  by rewrite Hrun, Hnet.
Qed.

(** X5. Whatever the outcome, [apiFetch] leaves the stored tokens alone and
    makes no call to [setItem]: the world after differs from the world
    before by the one request sent. *)
Theorem apiFetch_touches_no_storage
    (path : string) (opts : Options) (w : World) :
  ∃ req, (apiFetch path opts w).2 = sent w req.
Proof.
  destruct (apiFetch_cases path opts w) as (req & Hw & _). eauto.
Qed.

(** X6. The outcome tells the status.  A value is returned only for an
    answer in the success range, and it is the body as read.  An error
    that carries a [status] comes only from an answer with that status,
    outside the success range, carries the body as read, and its message
    is the string form of what the message is made of.  An error without
    [status] carries no [data] either, and comes only from a rejected
    request, from a JSON answer whose body does not parse, from a text
    that cannot be received, or from a non-success answer whose message
    cannot be made. *)
Theorem apiFetch_outcome_tells_status
    (path : string) (opts : Options) (w : World) :
  ∃ req,
    fetch_calls (apiFetch path opts w).2 = fetch_calls w ++ [req] ∧
    (∀ v, (apiFetch path opts w).1 = Return v →
       ∃ res, network req = Responded res ∧
              200 ≤ status res ≤ 299 ∧ reads_as res v) ∧
    (∀ e s, (apiFetch path opts w).1 = Throw e → err_status e = Some s →
       ∃ res data, network req = Responded res ∧ status res = s ∧
                   ¬ (200 ≤ s ≤ 299) ∧
                   err_data e = Some data ∧ reads_as res data ∧
                   to_string (message_source data s) = Some (message e)) ∧
    (∀ e, (apiFetch path opts w).1 = Throw e → err_status e = None →
       err_data e = None ∧
       ((∃ why, network req = Rejected why ∧ message e = why) ∨
        (∃ res why, network req = Responded res ∧ indicates_json res ∧
                    json res = Malformed why ∧ message e = why) ∨
        (∃ res why, network req = Responded res ∧ ¬ indicates_json res ∧
                    text res = TextFailed why ∧ message e = why) ∨
        (∃ res data, network req = Responded res ∧
                     ¬ (200 ≤ status res ≤ 299) ∧ reads_as res data ∧
                     to_string (message_source data (status res))
                     = None))).
Proof.
  destruct (apiFetch_cases path opts w)
    as (req & Hw & [(why & Hnet & Hout) |
                    [(res & why & Hnet & Hj & Hbad & Hout) |
                     [(res & why & Hnet & Hj & Hbad & Hout) |
                      (res & data & Hnet & Hread & Hout)]]]);
    exists req; rewrite Hw, Hout; (split; [done|]).
  - split_and!; [done|intros e s [= <-]; done|].
    intros e [= <-] _. split; [done|]. left. eauto.
  - split_and!; [done|intros e s [= <-]; done|].
    intros e [= <-] _. split; [done|]. right; left. eauto 10.
  - split_and!; [done|intros e s [= <-]; done|].
    intros e [= <-] _. split; [done|]. right; right; left. eauto 10.
  - destruct (ok res) eqn:Hok.
    + apply ApiFacts.ok_range in Hok.
      split_and!; [|done|done]. intros v [= <-]. eauto.
    + apply ApiFacts.ok_false_range in Hok.
      destruct (to_string _) as [m|] eqn:Hm.
      * split_and!; [done| |intros e [= <-]; done].
        intros e s [= <-] [= <-]. exists res, data. done.
      * split_and!; [done|intros e s [= <-]; done|].
        intros e [= <-] _. split; [done|]. do 3 right. eauto 10.
Qed.

(** X7. [login] sends one POST to the base address followed by
    [/auth/login], with the JSON content type and, as body, the JSON
    object of the e-mail, the password and the role, each quoted as
    [JSON.stringify] quotes a string (as it is, between quotes, when it
    has no quote, backslash or control character); it stores nothing
    itself: persisting the tokens is left to the caller. *)
Theorem login_request (c : Credentials) (w : World) :
  ∃ req,
    (login c w).2 = sent w req ∧
    url req = API_BASE +:+ "/auth/login" ∧
    req_method req = Some "POST" ∧
    req_body req
    = Some ("{" +:+ quoted "email" +:+ ":" +:+ quote (email c) +:+ "," +:+
            quoted "password" +:+ ":" +:+ quote (password c) +:+ "," +:+
            quoted "role" +:+ ":" +:+ quote (role c) +:+ "}") ∧
    (plain (email c) → plain (password c) → plain (role c) →
     req_body req
     = Some ("{" +:+ quoted "email" +:+ ":" +:+ quoted (email c) +:+ ","
             +:+ quoted "password" +:+ ":" +:+ quoted (password c) +:+ ","
             +:+ quoted "role" +:+ ":" +:+ quoted (role c) +:+ "}")) ∧
    req_headers req !! "Content-Type" = Some "application/json".
Proof.
  unfold Api.login.
  destruct (ApiFacts.apiFetch_run VITE_API_BASE network "/auth/login"
              {| method := Some "POST";
                 body := Some (JSON_stringify
                           [("email", email c); ("password", password c);
                            ("role", role c)]);
                 headers := None |} w)
    as (req & (Hu & Hm & Hb & Hh) & Hrun).
  cbn [method body headers] in *. rewrite JSON_stringify_three in Hb.
  exists req. rewrite Hrun. split_and!; try done.
  - intros He Hp Hr. rewrite Hb.
    by rewrite (ApiFacts.quote_plain _ He), (ApiFacts.quote_plain _ Hp),
      (ApiFacts.quote_plain _ Hr).
  - rewrite Hh. simpl. rewrite (left_id ∅ _).
    destruct (localStorage w !! "access_token") as [t|].
    + destruct (String.eqb t "").
      * by rewrite (left_id ∅ _), lookup_singleton_eq.
      * rewrite lookup_union, lookup_singleton_ne by done.
        by rewrite lookup_singleton_eq.
    + by rewrite (left_id ∅ _), lookup_singleton_eq.
Qed.

(** X8. [me] sends one GET without body to the base address followed by
    [/auth/me]; its headers are the JSON content type and, exactly when
    a non-empty access token is stored, the bearer token: nothing else,
    and nothing is stored. *)
Theorem me_request (w : World) :
  ∃ req,
    (me w).2 = sent w req ∧
    url req = API_BASE +:+ "/auth/me" ∧
    req_method req = Some "GET" ∧
    req_body req = None ∧
    req_headers req =
      match localStorage w !! "access_token" with
      | Some t =>
          if decide (t = "")
          then {["Content-Type" := "application/json"]}
          else {["Authorization" := "Bearer " +:+ t;
                 "Content-Type" := "application/json"]}
      | None => {["Content-Type" := "application/json"]}
      end.
Proof.
  unfold Api.me.
  destruct (ApiFacts.apiFetch_run VITE_API_BASE network "/auth/me"
              {| method := Some "GET"; body := None; headers := None |} w)
    as (req & (Hu & Hm & Hb & Hh) & Hrun).
  exists req. rewrite Hrun. split_and!; try done.
  rewrite Hh. simpl. rewrite (left_id ∅ _).
  destruct (localStorage w !! "access_token") as [t|];
    [|by rewrite (left_id ∅ _)].
  destruct (decide (t = "")) as [->|Hne];
    [simpl; by rewrite (left_id ∅ _)|].
  apply String.eqb_neq in Hne. rewrite Hne.
  apply map_eq. intros k. rewrite lookup_union.
  destruct (decide (k = "Authorization")) as [->|Hk].
  - by rewrite lookup_singleton_eq, lookup_insert_eq.
  - rewrite lookup_singleton_ne, lookup_insert_ne by done.
    by rewrite (left_id None _).
Qed.

(** X9. Once [storeTokens] has handed the storage a token object whose
    [access_token] is a non-empty string, and the storage has taken it,
    the next request carries it as the bearer token, unless the caller
    supplies an [Authorization] header of its own. *)
Theorem stored_access_token_is_sent
    (tokenObj : value) (a : string) (w : World)
    (path : string) (opts : Options) :
  get tokenObj "access_token" = VStr a →
  a ≠ "" →
  quota w "access_token" a = None →
  default ∅ (headers opts) !! "Authorization" = None →
  ∃ req,
    fetch_calls (apiFetch path opts (storeTokens tokenObj w).2).2
    = fetch_calls w ++ [req] ∧
    req_headers req !! "Authorization" = Some ("Bearer " +:+ a).
Proof.
  intros Hget Ha Hq Hcaller.
  destruct (ApiFacts.apiFetch_run VITE_API_BASE network path opts
              (storeTokens tokenObj w).2)
    as (req & (_ & _ & _ & Hh) & Hrun).
  exists req. rewrite Hrun. cbn [fst snd fetch_calls].
  rewrite ApiFacts.storeTokens_calls.
  split; [done|].
  rewrite Hh, lookup_union, Hcaller, (left_id None _).
  rewrite (ApiFacts.storeTokens_access_stored quota tokenObj w a) by done.
  apply String.eqb_neq in Ha. rewrite Ha.
  by rewrite lookup_union, lookup_singleton_eq.
Qed.

(** X10. Once [storeTokens] has stored a token object whose
    [refresh_token] is a non-empty string, [refreshToken] sends one
    POST to the base address followed by [/auth/refresh] whose body is
    the JSON object with exactly that token, quoted, under
    [refresh_token]. *)
Theorem stored_refresh_token_is_posted
    (tokenObj : value) (r : string) (w : World) :
  get tokenObj "refresh_token" = VStr r →
  r ≠ "" →
  (storeTokens tokenObj w).1 = Return () →
  ∃ req,
    fetch_calls (refreshToken (storeTokens tokenObj w).2).2
    = fetch_calls w ++ [req] ∧
    url req = API_BASE +:+ "/auth/refresh" ∧
    req_method req = Some "POST" ∧
    req_body req
    = Some ("{" +:+ quoted "refresh_token" +:+ ":" +:+ quote r +:+ "}") ∧
    (plain r →
     req_body req
     = Some ("{" +:+ quoted "refresh_token" +:+ ":" +:+ quoted r +:+ "}")).
Proof.
  intros Hget Hr Hdone.
  assert (truthy tokenObj = true) as Ht by (by destruct tokenObj).
  destruct (ApiFacts.refreshToken_sends quota VITE_API_BASE network
              (storeTokens tokenObj w).2 r)
    as (req & Hsent & Hu & Hm & Hb & _); [|done|].
  - rewrite (ApiFacts.storeTokens_lookup quota tokenObj w "refresh_token")
      by auto.
    rewrite Ht, Hget. simpl.
    apply String.eqb_neq in Hr. by rewrite Hr.
  - exists req. rewrite Hsent, ApiFacts.storeTokens_calls.
    split_and!; try done.
    intros Hplain. by rewrite Hb, <-(ApiFacts.quote_plain r Hplain).
Qed.

(** X11. After a refresh whose answer was a success with a readable
    body and whose [storeTokens] completed, the pair is returned and the
    stored refresh token is the one the answer carries, if it carries
    one; an answer with only an access token leaves the refresh token
    that was used in place. *)
Theorem refreshToken_rotation
    (w : World) (t : string) (req : Request) (res : Response)
    (data : value) :
  localStorage w !! "refresh_token" = Some t → t ≠ "" →
  fetch_calls (refreshToken w).2 = fetch_calls w ++ [req] →
  network req = Responded res →
  200 ≤ status res ≤ 299 →
  reads_as res data →
  (storeTokens data (sent w req)).1 = Return () →
  (refreshToken w).1 = Return data ∧
  localStorage (refreshToken w).2 !! "refresh_token" =
    (if truthy data && truthy (get data "refresh_token")
     then to_string (get data "refresh_token")
     else Some t) ∧
  localStorage (refreshToken w).2 !! "access_token" =
    (if truthy data && truthy (get data "access_token")
     then to_string (get data "access_token")
     else localStorage w !! "access_token").
Proof.
  intros Hstored Ht Hsent Hnet Hok%ApiFacts.ok_range Hread Hdone.
  destruct (ApiFacts.refreshToken_sends quota VITE_API_BASE network w t
              Hstored Ht)
    as (req' & Hsent' & _ & _ & _ & Hw & Hrun).
  assert (req' = req) as ->.
  { rewrite Hsent' in Hsent. by apply app_inj_tail in Hsent as [_ ?]. }
  assert (fetch_calls
            (apiFetch "/auth/refresh"
               {| method := Some "POST";
                  body := Some (JSON_stringify [("refresh_token", t)]);
                  headers := None |} w).2
          = fetch_calls w ++ [req]) as Hsent_api by (by rewrite Hw).
  pose proof (ApiFacts.apiFetch_answered VITE_API_BASE network _ _ w req
                res data Hsent_api Hnet Hread) as Hout.
  rewrite Hok in Hout. rewrite Hrun.
  destruct (apiFetch "/auth/refresh" _ w) as [out w1].
  cbn [fst snd] in *. subst out w1.
  pose proof (ApiFacts.storeTokens_lookup quota data (sent w req)
                "refresh_token" (or_intror eq_refl) Hdone) as Hr.
  pose proof (ApiFacts.storeTokens_lookup quota data (sent w req)
                "access_token" (or_introl eq_refl) Hdone) as Ha.
  destruct (Api.storeTokens quota data (sent w req)) as [[[]|e] w2];
    [|done].
  cbn [fst snd localStorage] in *. rewrite Hr, Ha, Hstored. done.
Qed.

End Client.

End ApiMore.

(** ** More properties of the login form *)

Module LoginMore.
Import Js Api Login.

(** The handler's test [res && (res.access_token || res.refresh_token)]
    holds exactly when one of the two properties is truthy. *)
Lemma has_token (res : value) :
  truthy (and_ res (or_ (get res "access_token") (get res "refresh_token")))
  = truthy (get res "access_token") || truthy (get res "refresh_token").
Proof.
  unfold and_, or_. destruct (truthy res) eqn:Hres.
  - by destruct (truthy (get res "access_token")) eqn:Ha; rewrite ?Ha.
  - rewrite Hres. by destruct res.
Qed.

(** An error without data is shown by its message, or by the fallback. *)
Lemma catch_message_plain (err : JsError) :
  err_data err = None →
  catch_message err
  = Some (if decide (Api.message err = "") then "Login failed"
          else Api.message err).
Proof.
  intros Hdata. unfold catch_message. rewrite Hdata.
  destruct (decide (Api.message err = "")) as [Hm|Hne]; [by rewrite Hm|].
  apply String.eqb_neq in Hne. by rewrite Hne.
Qed.

(** The errors of [storeTokens] carry no data. *)
Lemma storeTokens_error_plain
    (quota : Quota) (tokenObj : value) (w : World) (e : JsError) :
  (Api.storeTokens quota tokenObj w).1 = Throw e → err_data e = None.
Proof.
  ApiFacts.storeTokens_runs_with quota; intros; by simplify_eq.
Qed.

Section Handler.

Variable VITE_API_BASE : option string.
Variable network : Request → FetchResult.
Variable quota : Quota.

Abbreviation login := (Api.login VITE_API_BASE network).
Abbreviation storeTokens := (Api.storeTokens quota).
Abbreviation onSubmit := (Login.onSubmit VITE_API_BASE network quota).
Abbreviation credentials f :=
  {| Api.email := Login.email f; Api.password := Login.password f;
     Api.role := Login.role f |}.

(** The form when the handler has finished, by what it shows. *)
Abbreviation shows f err msg sched :=
  {| Login.email := Login.email f; Login.password := Login.password f;
     Login.role := Login.role f; loading := false; error := err;
     Login.message := msg; scheduled := sched |}.

(** How the [catch] block ends the handler. *)
Abbreviation caught f err w :=
  match catch_message err with
  | Some msg => (Return (), (shows f msg "" (scheduled f), w))
  | None => (Throw TypeError, (shows f "" "" (scheduled f), w))
  end.

(** The ways the handler can end. *)
Lemma onSubmit_run (f : Form) (w : World) :
  onSubmit f w =
    match login (credentials f) w with
    | (Return res, w1) =>
        if truthy (get res "access_token") || truthy (get res "refresh_token")
        then
          match storeTokens res w1 with
          | (Return _, w2) =>
              (Return (),
               (shows f "" "Login successful! Redirecting..."
                  (Some (800, "/")), w2))
          | (Throw err, w2) => caught f err w2
          end
        else
          (Return (),
           (shows f
              "Login succeeded but no token returned. Please verify API response."
              "" (scheduled f), w1))
    | (Throw err, w1) => caught f err w1
    end.
Proof.
  unfold Login.onSubmit, catch_block.
  cbn [setError setMessage setLoading Login.email Login.password
    Login.role].
  destruct (Api.login _ _ _ w) as [[res|err] w1].
  - rewrite has_token. destruct (_ || _); [|done].
    destruct (Api.storeTokens _ _ _) as [[[]|err] w2]; [done|].
    by destruct (catch_message err).
  - by destruct (catch_message err).
Qed.

(** [login] stores nothing. *)
Lemma login_storage (c : Credentials) (w : World) :
  localStorage (login c w).2 = localStorage w ∧
  setItem_calls (login c w).2 = setItem_calls w.
Proof. apply ApiFacts.apiFetch_storage. Qed.

(** X12. A login that returns a token hands it to [storeTokens].  When
    that completes, both tokens the answer carries are stored (a token
    it does not carry keeps its stored value), the success message is
    shown, no error is shown, and the navigation to the landing page is
    scheduled 800 ms ahead.  When the storage refuses a write, the
    error of [storeTokens] lands in the [catch] block: its message (or
    [Login failed]) is shown, no success message is shown and no
    navigation is scheduled. *)
Theorem onSubmit_success
    (f : Form) (w w1 : World) (res : value) :
  login (credentials f) w = (Return res, w1) →
  truthy (get res "access_token") = true ∨
  truthy (get res "refresh_token") = true →
  ((storeTokens res w1).1 = Return () →
   Login.message (onSubmit f w).2.1 = "Login successful! Redirecting..." ∧
   error (onSubmit f w).2.1 = "" ∧
   scheduled (onSubmit f w).2.1 = Some (800, "/") ∧
   (∀ key, key = "access_token" ∨ key = "refresh_token" →
      localStorage (onSubmit f w).2.2 !! key =
        if truthy (get res key) then to_string (get res key)
        else localStorage w !! key)) ∧
  (∀ e, (storeTokens res w1).1 = Throw e →
   Login.message (onSubmit f w).2.1 = "" ∧
   error (onSubmit f w).2.1
   = (if decide (Api.message e = "") then "Login failed"
      else Api.message e) ∧
   scheduled (onSubmit f w).2.1 = scheduled f).
Proof.
  intros Hlogin Htoken.
  pose proof (login_storage (credentials f) w) as [Hls _].
  rewrite onSubmit_run, Hlogin. rewrite Hlogin in Hls. cbn [snd] in Hls.
  assert (truthy (get res "access_token")
          || truthy (get res "refresh_token") = true) as ->
    by (destruct Htoken as [-> | ->]; [done | by rewrite orb_true_r]).
  assert (truthy res = true) as Hres.
  { destruct res; try done; destruct Htoken; done. }
  split.
  - intros Hdone.
    pose proof (λ key Hkey, ApiFacts.storeTokens_lookup quota res w1 key
                              Hkey Hdone) as Hlookup.
    destruct (Api.storeTokens quota res w1) as [[[]|e] w2]; [|done].
    cbn [fst snd error Login.message scheduled] in *.
    split_and!; try done.
    intros key Hkey. by rewrite (Hlookup key Hkey), Hres, Hls.
  - intros e He.
    pose proof (storeTokens_error_plain quota res w1 e He) as Hplain.
    destruct (Api.storeTokens quota res w1) as [[[]|e'] w2]; [done|].
    cbn [fst] in He. injection He as ->.
    rewrite (catch_message_plain e Hplain). done.
Qed.

(** X13. A login that returns without a token (an empty object, [null], a
    token object with empty strings): the form shows the no-token error
    and no success message, nothing is stored and no navigation is
    scheduled. *)
Theorem onSubmit_no_token
    (f : Form) (w w1 : World) (res : value) :
  login (credentials f) w = (Return res, w1) →
  truthy (get res "access_token") = false →
  truthy (get res "refresh_token") = false →
  error (onSubmit f w).2.1
  = "Login succeeded but no token returned. Please verify API response." ∧
  Login.message (onSubmit f w).2.1 = "" ∧
  scheduled (onSubmit f w).2.1 = scheduled f ∧
  localStorage (onSubmit f w).2.2 = localStorage w ∧
  setItem_calls (onSubmit f w).2.2 = setItem_calls w.
Proof.
  intros Hlogin Ha Hr.
  pose proof (login_storage (credentials f) w) as [Hls Hsc].
  rewrite onSubmit_run, Hlogin, Ha, Hr. rewrite Hlogin in Hls, Hsc. done.
Qed.

(** X14. What every finished run of the handler keeps: the e-mail,
    password and role are as entered; the loading flag is off; the
    success message and an error are never shown together; exactly one
    request has been sent; a navigation is scheduled only together with
    the success message; and unless [login] returned an answer that
    carries a token, the storage is untouched. *)
Theorem onSubmit_invariants (f : Form) (w : World) :
  Login.email (onSubmit f w).2.1 = Login.email f ∧
  Login.password (onSubmit f w).2.1 = Login.password f ∧
  Login.role (onSubmit f w).2.1 = Login.role f ∧
  loading (onSubmit f w).2.1 = false ∧
  (Login.message (onSubmit f w).2.1 = "" ∨ error (onSubmit f w).2.1 = "") ∧
  (∃ req, fetch_calls (onSubmit f w).2.2 = fetch_calls w ++ [req]) ∧
  (Login.message (onSubmit f w).2.1 = "" →
     scheduled (onSubmit f w).2.1 = scheduled f) ∧
  ((∀ res w1, login (credentials f) w = (Return res, w1) →
      truthy (get res "access_token") = false ∧
      truthy (get res "refresh_token") = false) →
     localStorage (onSubmit f w).2.2 = localStorage w ∧
     setItem_calls (onSubmit f w).2.2 = setItem_calls w).
Proof.
  pose proof (login_storage (credentials f) w) as [Hls Hsc].
  destruct (ApiMore.apiFetch_cases VITE_API_BASE network "/auth/login"
              {| method := Some "POST";
                 body := Some (JSON_stringify
                           [("email", Login.email f);
                            ("password", Login.password f);
                            ("role", Login.role f)]);
                 headers := None |} w) as (req & Hw & _).
  rewrite onSubmit_run. unfold Api.login in *.
  cbn [Api.email Api.password Api.role] in *.
  destruct (Api.apiFetch _ _ _ _ w) as [[res|err] w1];
    cbn [fst snd] in *; subst w1.
  - destruct (_ || _) eqn:Htoken.
    + pose proof (ApiFacts.storeTokens_calls quota res
                    {| localStorage := localStorage w;
                       setItem_calls := setItem_calls w;
                       fetch_calls := fetch_calls w ++ [req] |}) as Hcalls.
      destruct (Api.storeTokens quota res _) as [[[]|e] w2];
        [|destruct (catch_message e)];
        cbn [fst snd Login.email Login.password Login.role loading error
          Login.message scheduled fetch_calls] in *.
      all: split_and!; try done; try (by left); try (by right);
        try (by exists req).
      all: intros Hno; destruct (Hno res _ eq_refl) as [Ha Hr];
        by rewrite Ha, Hr in Htoken.
    + cbn [fst snd Login.email Login.password Login.role loading error
        Login.message scheduled].
      split_and!; try done; first [by left | by exists req].
  - destruct (catch_message err);
      cbn [fst snd Login.email Login.password Login.role loading error
        Login.message scheduled];
      split_and!; try done; first [by left | by exists req].
Qed.

(** X15. A rejected login whose body explains itself under [detail] as
    anything but a list, and carries no [error] and no [message], is
    shown as [Request failed with <status>]: the explanation is not
    displayed. *)
Theorem onSubmit_detail_not_a_list
    (f : Form) (w : World) (req : Request) (res : Response)
    (data : value) :
  fetch_calls (login (credentials f) w).2 = fetch_calls w ++ [req] →
  network req = Responded res →
  ¬ (200 ≤ status res ≤ 299) →
  reads_as res data →
  isArray (get data "detail") = false →
  truthy (get data "error") = false →
  truthy (get data "message") = false →
  error (onSubmit f w).2.1 = "Request failed with " +:+ pretty (status res).
Proof.
  intros Hsent Hnet Hok Hread Hdetail He Hm.
  destruct (LoginFacts.login_rejected VITE_API_BASE network f w req res
              data ("Request failed with " +:+ pretty (status res))
              Hsent Hnet Hok Hread) as [w1 Hlogin].
  { unfold message_source. by rewrite He, Hm. }
  apply (LoginFacts.onSubmit_catch _ _ quota f w w1 _ _ Hlogin).
  unfold catch_message. cbn [err_data Api.message].
  by destruct (get data "detail").
Qed.

(** X16. A rejected login whose [detail] is a list without any message (the
    empty list, or items whose [msg] is missing or empty) is shown as
    nothing at all: neither an error nor the success message. *)
Theorem onSubmit_empty_detail_shows_nothing
    (f : Form) (w w1 : World) (err : JsError)
    (data : value) (items : list value) :
  login (credentials f) w = (Throw err, w1) →
  err_data err = Some data →
  get data "detail" = VArr items →
  Forall (λ d, truthy (get d "msg") = false) items →
  error (onSubmit f w).2.1 = "" ∧ Login.message (onSubmit f w).2.1 = "".
Proof.
  intros Hlogin Hdata Hdetail Hall.
  rewrite onSubmit_run, Hlogin.
  assert (catch_message err = Some "") as ->; [|done].
  unfold catch_message. rewrite Hdata, Hdetail.
  assert (List.filter truthy (List.map (λ d, get d "msg") items) = [])
    as ->; [|done].
  clear Hdetail.
  induction Hall as [|d items Hd _ IH]; [done|].
  cbn [List.map List.filter]. by rewrite Hd.
Qed.

(** X17. When the network rejects the login request, the form shows the
    network's message, or [Login failed] when there is none, and the
    stored tokens stay as they were. *)
Theorem onSubmit_network_failure
    (f : Form) (w : World) (req : Request) (why : string) :
  fetch_calls (login (credentials f) w).2 = fetch_calls w ++ [req] →
  network req = Rejected why →
  error (onSubmit f w).2.1
  = (if decide (why = "") then "Login failed" else why) ∧
  Login.message (onSubmit f w).2.1 = "" ∧
  localStorage (onSubmit f w).2.2 = localStorage w ∧
  setItem_calls (onSubmit f w).2.2 = setItem_calls w.
Proof.
  intros Hsent Hnet.
  unfold Api.login in Hsent.
  cbn [Api.email Api.password Api.role] in Hsent.
  destruct (ApiFacts.apiFetch_run VITE_API_BASE network "/auth/login"
              {| method := Some "POST";
                 body := Some (JSON_stringify
                           [("email", Login.email f);
                            ("password", Login.password f);
                            ("role", Login.role f)]);
                 headers := None |} w) as (req' & _ & Hrun).
  assert (req' = req) as ->
    by (eapply ApiFacts.sent_request; [exact Hsent | by rewrite Hrun]).
  rewrite Hnet in Hrun.
  rewrite onSubmit_run. unfold Api.login.
  cbn [Api.email Api.password Api.role]. rewrite Hrun.
  rewrite (catch_message_plain (Error why)) by done.
  cbn [fst snd error Login.message localStorage setItem_calls Api.message
    Error].
  done.
Qed.

(** X18. The address the form displays is the address the login request goes
    to. *)
Theorem api_hint_is_login_url (f : Form) (w : World) :
  ∃ req,
    fetch_calls (onSubmit f w).2.2 = fetch_calls w ++ [req] ∧
    api_hint VITE_API_BASE = "API: " +:+ url req.
Proof.
  destruct (ApiFacts.apiFetch_run VITE_API_BASE network "/auth/login"
              {| method := Some "POST";
                 body := Some (JSON_stringify
                           [("email", Login.email f);
                            ("password", Login.password f);
                            ("role", Login.role f)]);
                 headers := None |} w) as (req & (Hu & _) & Hrun).
  exists req. rewrite onSubmit_run. unfold Api.login.
  cbn [Api.email Api.password Api.role]. rewrite Hrun, Hu.
  split; [|done].
  destruct (match network req with Responded _ => _ | _ => _ end)
    as [res|err]; [|by destruct (catch_message err)].
  destruct (_ || _); [|done].
  pose proof (ApiFacts.storeTokens_calls quota res
                {| localStorage := localStorage w;
                   setItem_calls := setItem_calls w;
                   fetch_calls := fetch_calls w ++ [req] |}) as Hcalls.
  destruct (Api.storeTokens quota res _) as [[[]|e] w2];
    [done|by destruct (catch_message e)].
Qed.

End Handler.

End LoginMore.

(** ** The further properties at concrete inputs *)

Module MoreScenarios.
Import Js Api.

(** X2: the same pair stored twice. *)
Lemma storeTokens_idempotent_witness :
  localStorage
    (Api.storeTokens tight (token_pair "T1" "R1")
       (Api.storeTokens unlimited (token_pair "T1" "R1") empty_world).2).2
  = localStorage
      (Api.storeTokens unlimited (token_pair "T1" "R1") empty_world).2 ∧
  localStorage
    (Api.storeTokens unlimited (token_pair "T1" "R1")
       (Api.storeTokens unlimited (token_pair "T1" "R1") empty_world).2).2
  !! "access_token" = Some "T1".
Proof.
  split; [reflexivity|].
  rewrite (ApiMore.storeTokens_idempotent unlimited (token_pair "T1" "R1")
             empty_world eq_refl).
  reflexivity.
Defined.

(** X3: a login answer with both tokens, then an access token alone. *)
Lemma storeTokens_last_write_wins_witness :
  localStorage
    (Api.storeTokens unlimited (VObj [("access_token", VStr "T2")])
       (Api.storeTokens unlimited (token_pair "T1" "R1") empty_world).2).2
    !! "refresh_token"
  = Some "R1".
Proof.
  apply (ApiMore.storeTokens_last_write_wins unlimited
           (token_pair "T1" "R1") (VObj [("access_token", VStr "T2")])
           empty_world "refresh_token").
  - right. reflexivity.
  - reflexivity.
  - reflexivity.
Defined.

(** X4: the network is down. *)
Lemma apiFetch_network_failure_witness :
  Api.apiFetch None offline "/auth/me" no_options logged_in_world
  = (Throw {| message := "Failed to fetch"; err_status := None;
              err_data := None |},
     {| localStorage := localStorage logged_in_world;
        setItem_calls := [];
        fetch_calls := [bearer_request "/auth/me" None None] |}).
Proof.
  apply (ApiMore.apiFetch_network_failure None offline "/auth/me"
           no_options logged_in_world
           (bearer_request "/auth/me" None None) "Failed to fetch").
  - vm_compute. reflexivity.
  - reflexivity.
Defined.

(** X7: the body of a login, letter by letter, and a password with a
    double quote, which goes out behind a backslash. *)
Lemma login_request_witness :
  (∃ req,
     fetch_calls (Api.login None offline plain_credentials empty_world).2
     = [req] ∧
     req_body req
     = Some ("{" +:+ quoted "email" +:+ ":" +:+ quoted "a@b.com" +:+ ","
             +:+ quoted "password" +:+ ":" +:+ quoted "x" +:+ ","
             +:+ quoted "role" +:+ ":" +:+ quoted "patient" +:+ "}")) ∧
  (∃ req,
     fetch_calls (Api.login None offline quoting_credentials empty_world).2
     = [req] ∧
     req_body req
     = Some ("{" +:+ quoted "email" +:+ ":" +:+ quoted "a@b.com" +:+ ","
             +:+ quoted "password" +:+ ":" +:+
             quoted ("p" +:+ String backslash (String dquote "q")) +:+ ","
             +:+ quoted "role" +:+ ":" +:+ quoted "patient" +:+ "}")).
Proof.
  split.
  - destruct (ApiMore.login_request None offline plain_credentials
                empty_world) as (req & Hw & _ & _ & _ & Hplain & _).
    exists req. split; [by rewrite Hw|].
    apply Hplain; repeat constructor.
  - destruct (ApiMore.login_request None offline quoting_credentials
                empty_world) as (req & Hw & _ & _ & Hb & _).
    exists req. split; [by rewrite Hw|]. exact Hb.
Defined.

(** X9: the token of a login answer is the bearer of the next request. *)
Lemma stored_access_token_is_sent_witness :
  ∃ req,
    fetch_calls
      (Api.apiFetch None offline "/auth/me" no_options
         (Api.storeTokens unlimited (token_pair "T1" "R1") empty_world).2).2
    = fetch_calls empty_world ++ [req] ∧
    req_headers req !! "Authorization" = Some "Bearer T1".
Proof.
  apply (ApiMore.stored_access_token_is_sent None offline unlimited
           (token_pair "T1" "R1") "T1" empty_world "/auth/me" no_options).
  - reflexivity.
  - discriminate.
  - reflexivity.
  - reflexivity.
Defined.

(** X10: the refresh token of a login answer is the one posted next. *)
Lemma stored_refresh_token_is_posted_witness :
  ∃ req,
    fetch_calls
      (Api.refreshToken None offline unlimited
         (Api.storeTokens unlimited (token_pair "T1" "R1") empty_world).2).2
    = [req] ∧
    url req = "http://localhost:8000/auth/refresh" ∧
    req_method req = Some "POST" ∧
    req_body req
    = Some ("{" +:+ quoted "refresh_token" +:+ ":" +:+ quoted "R1" +:+ "}").
Proof.
  destruct (ApiMore.stored_refresh_token_is_posted None offline unlimited
              (token_pair "T1" "R1") "R1" empty_world)
    as (req & Hsent & Hu & Hm & _ & Hplain).
  - reflexivity.
  - discriminate.
  - reflexivity.
  - exists req. split_and!; [exact Hsent|exact Hu|exact Hm|].
    apply Hplain. repeat constructor.
Defined.

(** X11: a refresh answered with an access token only. *)
Lemma refreshToken_rotation_witness :
  let server :=
    always (json_response 200 "application/json"
              (VObj [("access_token", VStr "T1")])) in
  (Api.refreshToken None server unlimited logged_in_world).1
  = Return (VObj [("access_token", VStr "T1")]) ∧
  localStorage (Api.refreshToken None server unlimited logged_in_world).2
    !! "refresh_token" = Some "R0" ∧
  localStorage (Api.refreshToken None server unlimited logged_in_world).2
    !! "access_token" = Some "T1".
Proof.
  intros server.
  apply (ApiMore.refreshToken_rotation None server unlimited
           logged_in_world "R0"
           (bearer_request "/auth/refresh" (Some "POST")
              (Some ("{" +:+ quoted "refresh_token" +:+ ":" +:+
                     quoted "R0" +:+ "}")))
           (json_response 200 "application/json"
              (VObj [("access_token", VStr "T1")]))
           (VObj [("access_token", VStr "T1")])).
  - reflexivity.
  - discriminate.
  - vm_compute. reflexivity.
  - reflexivity.
  - simpl. lia.
  - apply reads_json; [|reflexivity].
    exists "application/json", "", "". split; reflexivity.
  - reflexivity.
Defined.

(** X12: the login of the specification's scenario, both tokens
    returned; and the same answer met by a storage that refuses the
    longer token. *)
Lemma onSubmit_success_witness :
  (let out :=
     Login.onSubmit None
       (always (json_response 200 "application/json" (token_pair "T1" "R1")))
       unlimited Login.initial empty_world in
   Login.message out.2.1 = "Login successful! Redirecting..." ∧
   Login.error out.2.1 = "" ∧
   Login.scheduled out.2.1 = Some (800, "/") ∧
   localStorage out.2.2 !! "access_token" = Some "T1" ∧
   localStorage out.2.2 !! "refresh_token" = Some "R1") ∧
  (let out :=
     Login.onSubmit None
       (always (json_response 200 "application/json"
                  (token_pair "T1" "R1-long")))
       tight Login.initial empty_world in
   Login.message out.2.1 = "" ∧
   Login.error out.2.1 = "The quota has been exceeded." ∧
   Login.scheduled out.2.1 = None).
Proof.
  split.
  - destruct (LoginMore.onSubmit_success None
                (always (json_response 200 "application/json"
                           (token_pair "T1" "R1")))
                unlimited Login.initial empty_world first_login_sent
                (token_pair "T1" "R1")) as [Hdone _].
    + vm_compute. reflexivity.
    + left. reflexivity.
    + destruct (Hdone eq_refl) as (Hm & He & Hs & Hk).
      split_and!; [exact Hm|exact He|exact Hs| |].
      * exact (Hk "access_token" (or_introl eq_refl)).
      * exact (Hk "refresh_token" (or_intror eq_refl)).
  - destruct (LoginMore.onSubmit_success None
                (always (json_response 200 "application/json"
                           (token_pair "T1" "R1-long")))
                tight Login.initial empty_world first_login_sent
                (token_pair "T1" "R1-long")) as [_ Hthrow].
    + vm_compute. reflexivity.
    + left. reflexivity.
    + exact (Hthrow (Error "The quota has been exceeded.") eq_refl).
Defined.

(** X13: the login of the specification's scenario, an empty object. *)
Lemma onSubmit_no_token_witness :
  let server := always (json_response 200 "application/json" (VObj [])) in
  let out := Login.onSubmit None server unlimited Login.initial empty_world in
  Login.error out.2.1
  = "Login succeeded but no token returned. Please verify API response." ∧
  Login.message out.2.1 = "" ∧
  Login.scheduled out.2.1 = None ∧
  localStorage out.2.2 = ∅ ∧
  setItem_calls out.2.2 = [].
Proof.
  intros server.
  apply (LoginMore.onSubmit_no_token None server unlimited Login.initial
           empty_world first_login_sent (VObj [])).
  - vm_compute. reflexivity.
  - reflexivity.
  - reflexivity.
Defined.

(** X15: a 401 that explains itself in a string under [detail]. *)
Lemma onSubmit_detail_not_a_list_witness :
  Login.error
    (Login.onSubmit None
       (always (json_response 401 "application/json" detail_string_body))
       unlimited Login.initial empty_world).2.1
  = "Request failed with 401".
Proof.
  apply (LoginMore.onSubmit_detail_not_a_list None
           (always (json_response 401 "application/json" detail_string_body))
           unlimited Login.initial empty_world first_login_request
           (json_response 401 "application/json" detail_string_body)
           detail_string_body).
  - vm_compute. reflexivity.
  - reflexivity.
  - simpl. lia.
  - apply reads_json; [|reflexivity].
    exists "application/json", "", "". split; reflexivity.
  - reflexivity.
  - reflexivity.
  - reflexivity.
Defined.

(** X16: a 422 with an empty list of details. *)
Lemma onSubmit_empty_detail_shows_nothing_witness :
  let server :=
    always (json_response 422 "application/json"
              (VObj [("detail", VArr [])])) in
  Login.error
    (Login.onSubmit None server unlimited Login.initial empty_world).2.1
  = "" ∧
  Login.message
    (Login.onSubmit None server unlimited Login.initial empty_world).2.1
  = "".
Proof.
  intros server.
  apply (LoginMore.onSubmit_empty_detail_shows_nothing None server unlimited
           Login.initial empty_world first_login_sent
           {| message := "Request failed with 422";
              err_status := Some 422;
              err_data := Some (VObj [("detail", VArr [])]) |}
           (VObj [("detail", VArr [])]) []).
  - vm_compute. reflexivity.
  - reflexivity.
  - reflexivity.
  - constructor.
Defined.

(** X17: the network is down when the form is submitted. *)
Lemma onSubmit_network_failure_witness :
  let out :=
    Login.onSubmit None offline unlimited Login.initial logged_in_world in
  Login.error out.2.1 = "Failed to fetch" ∧
  Login.message out.2.1 = "" ∧
  localStorage out.2.2 = localStorage logged_in_world ∧
  setItem_calls out.2.2 = [].
Proof.
  apply (LoginMore.onSubmit_network_failure None offline unlimited
           Login.initial logged_in_world
           (bearer_request "/auth/login" (Some "POST")
              (req_body first_login_request))
           "Failed to fetch").
  - vm_compute. reflexivity.
  - reflexivity.
Defined.

End MoreScenarios.
